(** * The notebook panel and its widget factory

    A shallow embedding of [src/notebook/panel.ts] (the [NotebookPanel]
    class and the [trustNotebook] function that follows it) and of
    [src/notebook/widgetfactory.ts] (the [NotebookWidgetFactory] class).

    Conventions of the embedding.
    - A method is a computation in the state-and-exception monad [M]: it
      takes the state of the objects it can reach and either returns or
      throws, in both cases with the state it left behind (a JavaScript
      exception does not undo the assignments made before it).
    - Calls to collaborators that live outside these two files (the kernel,
      the dialog service, signals, the document context) are appended to a
      log of [Call]s, so that "calls X exactly once" is a statement about
      the log.
    - A promise callback is a computation of its own, named after the
      [then] it is passed to; the value the promise is fulfilled with is an
      argument of that computation. *)

From Stdlib Require Import ZArith NArith List Ascii String Bool Sorted Lia.
From stdpp Require Import base option list gmap strings.

Local Open Scope string_scope.
Local Open Scope Z_scope.

(** ** JavaScript values used by the panel *)

(** Editor text is a JavaScript string: a sequence of UTF-16 code units. *)
Abbreviation JsString := (list N).

(** The code units of an ASCII literal. *)
Fixpoint units (s : string) : JsString :=
  match s with
  | EmptyString => []
  | String a rest => N_of_ascii a :: units rest
  end.

Definition LF : N := 10%N.

(** [s.split('\n')]: the segments between line feeds; never empty. *)
Fixpoint split_newline (s : JsString) : list JsString :=
  match s with
  | [] => [[]]
  | c :: rest =>
      if (c =? LF)%N then [] :: split_newline rest
      else match split_newline rest with
           | [] => [[c]]
           | l :: ls => (c :: l) :: ls
           end
  end.

(** [a[i]] for a number [i]: [undefined] (here [None]) unless [i] is an
    index of [a]. *)
Definition js_index {A : Type} (a : list A) (i : Z) : option A :=
  if i <? 0 then None else a !! Z.to_nat i.

(** The class [\s] of a regular expression without flags: the white space
    and line terminator code points of ECMAScript. [/\S/] matches a
    one-unit string exactly when its unit is outside this class. *)
Definition is_whitespace (c : N) : bool :=
  ((9 <=? c) && (c <=? 13) || (c =? 32) || (c =? 160) || (c =? 0x1680)
   || (0x2000 <=? c) && (c <=? 0x200a) || (c =? 0x2028) || (c =? 0x2029)
   || (c =? 0x202f) || (c =? 0x205f) || (c =? 0x3000) || (c =? 0xfeff))%N.

(** [++n] on a number holding a non-negative integer: numbers are IEEE
    doubles, so the increment is exact below 2^53 and leaves 2^53 as it
    is (2^53 + 1 rounds back to 2^53). The counter it is applied to starts
    at 0 and is changed by this operation only. *)
Definition MAX_EXACT : Z := 2 ^ 53.

Definition js_increment (n : Z) : Z :=
  if n <? MAX_EXACT then n + 1 else n.

(** A nullable reference held in a field. Every class of this model has a
    single instance, whose state is kept in the world; a field only records
    whether it still refers to it. *)
Inductive Ref : Type := null | object.

(** Values kept in the document's metadata store: objects, given by their
    properties. The panel copies them and never looks inside. *)
Abbreviation JsObject := (list (string * string)).

(** ** Records exchanged with the editor, the kernel and the dialog *)

(** [ITextChange] of [../cells/editor], the fields the panel reads. *)
Module ITextChange.
Record t : Type := { ch : Z; line : Z; newValue : JsString }.
End ITextChange.

(** [ICompletionRequest] of [../cells/editor], the fields the panel reads. *)
Module ICompletionRequest.
Record t : Type := { ch : Z; line : Z; currentValue : JsString }.
End ICompletionRequest.

(** The reply of [kernel.complete]. *)
Record ICompleteReply : Type := {
  status : string;
  matches : list string;
  cursor_start : Z;
  cursor_end : Z
}.

(** The reply of [kernel.kernelInfo]. *)
Record IKernelInfo : Type := { language_info : JsObject }.

(** The reply of [kernel.getKernelSpec]. *)
Record IKernelSpec : Type := { display_name : string; language : string }.

(** A kernel, as far as the panel tells kernels apart. *)
Record IKernel : Type := { name : string }.

(** The button a dialog was closed with. *)
Record IButtonItem : Type := { text : string }.

(** How a promise of a collaborator is settled. *)
Inductive Settled (A : Type) : Type :=
| Fulfilled (value : A)
| Rejected (reason : string).
Arguments Fulfilled {A} value.
Arguments Rejected {A} reason.

(** [IChangedArgs] of phosphor-properties; the indices are numbers. *)
Record IChangedArgs : Type := {
  args_name : string;
  oldValue : Z;
  newValue : Z
}.

(** Modelled from the spec: the completion model of [../completion] is not
    among the sources, so what an assignment to one of its properties does
    is taken from the spec. The spec's CompletionState (section 3) has four
    nullable fields, [options], [original], [current] and [cursor]; the
    panel also reads [isDisposed].
    - [original] is the signal that a session is open (section 4.1), and
      [current] is the most recent text change of that session: it is only
      refreshed while [original] is set, and the reset of [onTextChange],
      which assigns null to [options], [original] and [cursor] and to
      nothing else, leaves the whole state absent (sections 3, 4.1 and 8).
      So an assignment to [original], which opens or closes a session,
      leaves no [current] behind.
    - [options] and [cursor] are set from the response (section 4.1) and
      [current] is updated to the change: these assignments store their
      value. *)
Module CompletionModel.
Record t : Type := {
  options : option (list string);
  original : option ICompletionRequest.t;
  current : option ITextChange.t;
  cursor : option (Z * Z);
  isDisposed : bool
}.

Definition set_options (v : option (list string)) (m : t) : t :=
  {| options := v; original := original m; current := current m;
     cursor := cursor m; isDisposed := isDisposed m |}.
Definition set_original (v : option ICompletionRequest.t) (m : t) : t :=
  {| options := options m; original := v; current := None;
     cursor := cursor m; isDisposed := isDisposed m |}.
Definition set_current (v : option ITextChange.t) (m : t) : t :=
  {| options := options m; original := original m; current := v;
     cursor := cursor m; isDisposed := isDisposed m |}.
Definition set_cursor (v : option (Z * Z)) (m : t) : t :=
  {| options := options m; original := original m; current := current m;
     cursor := v; isDisposed := isDisposed m |}.

(** [new CompletionModel()]. *)
Definition empty : t :=
  {| options := None; original := None; current := None; cursor := None;
     isDisposed := false |}.
End CompletionModel.

(** ** The state-and-exception monad *)

Inductive Exn : Type := TypeError.

Inductive Outcome (S A : Type) : Type :=
| Return (a : A) (s : S)
| Throw (e : Exn) (s : S).
Arguments Return {S A} a s.
Arguments Throw {S A} e s.

Definition M (S A : Type) : Type := S -> Outcome S A.

Definition ret {S A : Type} (a : A) : M S A := fun s => Return a s.

Definition bind {S A B : Type} (c : M S A) (k : A -> M S B) : M S B :=
  fun s => match c s with
           | Return a s' => k a s'
           | Throw e s' => Throw e s'
           end.

Definition throw {S A : Type} (e : Exn) : M S A := fun s => Throw e s.
Definition gets {S A : Type} (f : S -> A) : M S A := fun s => Return (f s) s.
Definition modify {S : Type} (f : S -> S) : M S unit := fun s => Return tt (f s).

(** The state an outcome leaves behind, returned or thrown. *)
Definition state_of {S A : Type} (o : Outcome S A) : S :=
  match o with Return _ s => s | Throw _ s => s end.

Declare Scope js_scope.
Delimit Scope js_scope with js.
Notation "x <- c1 ;; c2" := (bind c1 (fun x => c2))
  (at level 100, c1 at next level, right associativity) : js_scope.
Notation "c1 ;; c2" := (bind c1 (fun _ => c2))
  (at level 100, right associativity) : js_scope.
Local Open Scope js_scope.

(** Reading a property of [v]: a [TypeError] when [v] is [undefined] or
    [null]. *)
Definition property_of {S A : Type} (v : option A) : M S A :=
  match v with
  | Some a => ret a
  | None => throw TypeError
  end.

(** ** The objects of the panel *)

(** The two signals of a cell editor the panel listens to. The slot
    connected to [textChanged] is always [onTextChange] and the one connected
    to [completionRequested] is always [onCompletionRequest], both with the
    panel as receiver, so a connection is told by its editor and signal. *)
Inductive EditorSignal : Type := textChanged | completionRequested.

#[global] Instance EditorSignal_eq_dec : EqDecision EditorSignal.
Proof. solve_decision. Defined.

(** A cell widget of the content area; [editor] identifies its editor. *)
Record CellWidget : Type := { editor : nat }.

(** [IKernelId] of jupyter-js-services: both properties are optional. *)
Record IKernelId : Type := { id_name : option string; id : option string }.

(** Calls to collaborators, in the order they are made. *)
Inductive Call : Type :=
| showDialog (title body : string)
| kernel_restart (kernel : IKernel)
| kernel_complete (kernel : IKernel) (code : option JsString) (cursor_pos : Z)
| kernel_kernelInfo (kernel : IKernel)
| kernel_getKernelSpec (kernel : IKernel)
| signal_connect (ed : nat) (signal : EditorSignal)
| signal_disconnect (ed : nat) (signal : EditorSignal)
| kernelChanged_connect
| completion_dispose
| super_dispose
| rendermime_clone
| context_changeKernel (kernel : IKernelId)
| populateDefaults.

(** A callback passed to [then], with the variables its closure captured,
    waiting for its promise to be fulfilled. *)
Inductive Callback : Type :=
| kernelInfo_then
| getKernelSpec_then (kernel : IKernel)
| complete_then (pendingComplete : Z) (change : ICompletionRequest.t)
| complete_then_then (change : ICompletionRequest.t).

(** The fields of [NotebookPanel] (lines 372-379), and [isDisposed], which
    the class inherits from phosphor's [Widget]: false until
    [Widget.dispose] has run. *)
Record NotebookPanel : Type := {
  _rendermime : Ref;
  _context : Ref;
  _model : Ref;
  _content : Ref;
  _toolbar : Ref;
  _clipboard : Ref;
  _completion : Ref;
  _pendingComplete : Z;
  isDisposed : bool
}.

(** The field initialisers. *)
Definition new_NotebookPanel : NotebookPanel :=
  {| _rendermime := null; _context := null; _model := null; _content := null;
     _toolbar := null; _clipboard := null; _completion := null;
     _pendingComplete := 0; isDisposed := false |}.

(** The panel together with the objects it shares with its closures and
    collaborators. These objects outlive the panel's references to them: a
    callback registered before [dispose] still holds the completion model.
    - [kernel]: [context.kernel];
    - [completion_model]: the model of the completion widget;
    - [children], [activeCellIndex]: the cells of the content area;
    - [connections]: the editor signals connected to the panel's slots;
    - [kernelChanged_slot]: whether the constructor's listener is connected;
    - [metadata]: the notebook model's metadata, by cursor name;
    - [pending]: the callbacks waiting for a reply;
    - [calls]: the log of calls to collaborators. *)
Record World : Type := {
  this : NotebookPanel;
  kernel : option IKernel;
  completion_model : CompletionModel.t;
  children : list CellWidget;
  activeCellIndex : Z;
  connections : list (nat * EditorSignal);
  kernelChanged_slot : bool;
  metadata : gmap string JsObject;
  pending : list Callback;
  calls : list Call
}.

(** *** Field updates *)

Definition with_this (f : NotebookPanel -> NotebookPanel) (w : World) : World :=
  {| this := f (this w); kernel := kernel w;
     completion_model := completion_model w; children := children w;
     activeCellIndex := activeCellIndex w; connections := connections w;
     kernelChanged_slot := kernelChanged_slot w; metadata := metadata w;
     pending := pending w; calls := calls w |}.

Definition with_completion_model (f : CompletionModel.t -> CompletionModel.t)
    (w : World) : World :=
  {| this := this w; kernel := kernel w;
     completion_model := f (completion_model w); children := children w;
     activeCellIndex := activeCellIndex w; connections := connections w;
     kernelChanged_slot := kernelChanged_slot w; metadata := metadata w;
     pending := pending w; calls := calls w |}.

Definition with_connections
    (f : list (nat * EditorSignal) -> list (nat * EditorSignal))
    (w : World) : World :=
  {| this := this w; kernel := kernel w;
     completion_model := completion_model w; children := children w;
     activeCellIndex := activeCellIndex w; connections := f (connections w);
     kernelChanged_slot := kernelChanged_slot w; metadata := metadata w;
     pending := pending w; calls := calls w |}.

Definition with_kernelChanged_slot (b : bool) (w : World) : World :=
  {| this := this w; kernel := kernel w;
     completion_model := completion_model w; children := children w;
     activeCellIndex := activeCellIndex w; connections := connections w;
     kernelChanged_slot := b; metadata := metadata w;
     pending := pending w; calls := calls w |}.

Definition with_metadata
    (f : gmap string JsObject -> gmap string JsObject) (w : World) : World :=
  {| this := this w; kernel := kernel w;
     completion_model := completion_model w; children := children w;
     activeCellIndex := activeCellIndex w; connections := connections w;
     kernelChanged_slot := kernelChanged_slot w; metadata := f (metadata w);
     pending := pending w; calls := calls w |}.

Definition with_pending (f : list Callback -> list Callback) (w : World) : World :=
  {| this := this w; kernel := kernel w;
     completion_model := completion_model w; children := children w;
     activeCellIndex := activeCellIndex w; connections := connections w;
     kernelChanged_slot := kernelChanged_slot w; metadata := metadata w;
     pending := f (pending w); calls := calls w |}.

Definition with_calls (f : list Call -> list Call) (w : World) : World :=
  {| this := this w; kernel := kernel w;
     completion_model := completion_model w; children := children w;
     activeCellIndex := activeCellIndex w; connections := connections w;
     kernelChanged_slot := kernelChanged_slot w; metadata := metadata w;
     pending := pending w; calls := f (calls w) |}.

Definition set__rendermime (r : Ref) (p : NotebookPanel) : NotebookPanel :=
  {| _rendermime := r; _context := _context p; _model := _model p;
     _content := _content p; _toolbar := _toolbar p;
     _clipboard := _clipboard p; _completion := _completion p;
     _pendingComplete := _pendingComplete p; isDisposed := isDisposed p |}.
Definition set__context (r : Ref) (p : NotebookPanel) : NotebookPanel :=
  {| _rendermime := _rendermime p; _context := r; _model := _model p;
     _content := _content p; _toolbar := _toolbar p;
     _clipboard := _clipboard p; _completion := _completion p;
     _pendingComplete := _pendingComplete p; isDisposed := isDisposed p |}.
Definition set__model (r : Ref) (p : NotebookPanel) : NotebookPanel :=
  {| _rendermime := _rendermime p; _context := _context p; _model := r;
     _content := _content p; _toolbar := _toolbar p;
     _clipboard := _clipboard p; _completion := _completion p;
     _pendingComplete := _pendingComplete p; isDisposed := isDisposed p |}.
Definition set__content (r : Ref) (p : NotebookPanel) : NotebookPanel :=
  {| _rendermime := _rendermime p; _context := _context p; _model := _model p;
     _content := r; _toolbar := _toolbar p;
     _clipboard := _clipboard p; _completion := _completion p;
     _pendingComplete := _pendingComplete p; isDisposed := isDisposed p |}.
Definition set__toolbar (r : Ref) (p : NotebookPanel) : NotebookPanel :=
  {| _rendermime := _rendermime p; _context := _context p; _model := _model p;
     _content := _content p; _toolbar := r;
     _clipboard := _clipboard p; _completion := _completion p;
     _pendingComplete := _pendingComplete p; isDisposed := isDisposed p |}.
Definition set__clipboard (r : Ref) (p : NotebookPanel) : NotebookPanel :=
  {| _rendermime := _rendermime p; _context := _context p; _model := _model p;
     _content := _content p; _toolbar := _toolbar p;
     _clipboard := r; _completion := _completion p;
     _pendingComplete := _pendingComplete p; isDisposed := isDisposed p |}.
Definition set__completion (r : Ref) (p : NotebookPanel) : NotebookPanel :=
  {| _rendermime := _rendermime p; _context := _context p; _model := _model p;
     _content := _content p; _toolbar := _toolbar p;
     _clipboard := _clipboard p; _completion := r;
     _pendingComplete := _pendingComplete p; isDisposed := isDisposed p |}.
Definition set__pendingComplete (n : Z) (p : NotebookPanel) : NotebookPanel :=
  {| _rendermime := _rendermime p; _context := _context p; _model := _model p;
     _content := _content p; _toolbar := _toolbar p;
     _clipboard := _clipboard p; _completion := _completion p;
     _pendingComplete := n; isDisposed := isDisposed p |}.
Definition set_isDisposed (b : bool) (p : NotebookPanel) : NotebookPanel :=
  {| _rendermime := _rendermime p; _context := _context p; _model := _model p;
     _content := _content p; _toolbar := _toolbar p;
     _clipboard := _clipboard p; _completion := _completion p;
     _pendingComplete := _pendingComplete p; isDisposed := b |}.

(** *** Primitive computations *)

(** [this.f = v]. *)
Definition assign (set : NotebookPanel -> NotebookPanel) : M World unit :=
  modify (with_this set).

(** [model.f = v] on the completion model. *)
Definition assign_model (set : CompletionModel.t -> CompletionModel.t)
    : M World unit :=
  modify (with_completion_model set).

(** Reading a property through the reference held in field [f]. *)
Definition through (f : NotebookPanel -> Ref) : M World unit :=
  fun w => match f (this w) with
           | object => Return tt w
           | null => Throw TypeError w
           end.

(** A call to a collaborator. *)
Definition call (c : Call) : M World unit :=
  modify (with_calls (fun l => (l ++ [c])%list)).

(** [promise.then(cb)]. *)
Definition register (cb : Callback) : M World unit :=
  modify (with_pending (fun l => (l ++ [cb])%list)).

(** [signal.connect(slot, this)] of phosphor-signaling: a connection that
    exists already is not made a second time. *)
Definition connect (ed : nat) (signal : EditorSignal) : M World unit :=
  call (signal_connect ed signal);;
  modify (with_connections (fun cs =>
    if decide ((ed, signal) ∈ cs) then cs else (cs ++ [(ed, signal)])%list)).

(** [signal.disconnect(slot, this)]. *)
Definition disconnect (ed : nat) (signal : EditorSignal) : M World unit :=
  call (signal_disconnect ed signal);;
  modify (with_connections (filter (fun c => c ≠ (ed, signal)))).

(** [this._content.childAt(index)]: [undefined] out of range. *)
Definition childAt (index : Z) : M World (option CellWidget) :=
  through _content;;
  gets (fun w => js_index (children w) index).

(** [cursor.setValue(v)] on [this.model.getMetadata(key)]. *)
Definition setMetadata (key : string) (v : JsObject) : M World unit :=
  modify (with_metadata (fun m => <[key := v]> m)).

(** ** [NotebookPanel] *)

(** [handleKernelChange(kernel)] (lines 267-280). The argument is
    [context.kernel], which is null when no kernel is attached. *)
Definition handleKernelChange (k : option IKernel) : M World unit :=
  kernel <- property_of k;;
  call (kernel_kernelInfo kernel);;
  register kernelInfo_then;;
  call (kernel_getKernelSpec kernel);;
  register (getKernelSpec_then kernel).

(** The callback of [kernel.kernelInfo().then] (lines 268-271). *)
Definition on_kernelInfo (info : IKernelInfo) : M World unit :=
  setMetadata "language_info" (language_info info).

(** The callback of [kernel.getKernelSpec().then] (lines 272-279). *)
Definition on_getKernelSpec (kernel : IKernel) (spec : IKernelSpec)
    : M World unit :=
  setMetadata "kernelspec"
    [("name", name kernel);
     ("display_name", display_name spec);
     ("language", language spec)].

(** The listener the constructor connects to [context.kernelChanged]
    (lines 116-118). *)
Definition on_kernelChanged : M World unit :=
  k <- gets kernel;;
  handleKernelChange k.

(** The constructor (lines 108-167), without the layout, the title and the
    dirty class, which touch none of the state kept here. The model and the
    context are objects; [createCompletion] makes a new completion model. *)
Definition constructor (rendermime clipboard : Ref) : M World unit :=
  assign (set__model object);;
  assign (set__rendermime rendermime);;
  assign (set__context object);;
  assign (set__clipboard clipboard);;
  call kernelChanged_connect;;
  modify (with_kernelChanged_slot true);;
  k <- gets kernel;;
  (match k with
   | Some _ => handleKernelChange k
   | None => ret tt
   end);;
  assign (set__content object);;
  assign (set__toolbar object);;
  modify (with_completion_model (fun _ => CompletionModel.empty));;
  assign (set__completion object);;
  index <- gets activeCellIndex;;
  cell <- childAt index;;
  match cell with
  | Some c =>
      connect (editor c) textChanged;;
      connect (editor c) completionRequested
  | None => ret tt
  end.

(** [dispose()] (lines 229-241). [super.dispose()] is phosphor's
    [Widget.dispose], which sets the flag [isDisposed] reads and clears the
    signal data of the widget: every connection that has the panel as its
    receiver is dropped. The listener of [kernelChanged] is a closure
    connected without a receiver and stays. *)
Definition dispose : M World unit :=
  disposed <- gets (fun w => isDisposed (this w));;
  if disposed then ret tt
  else
    assign (set__context null);;
    assign (set__rendermime null);;
    assign (set__content null);;
    assign (set__toolbar null);;
    assign (set__clipboard null);;
    through _completion;;
    call completion_dispose;;
    assign (set__completion null);;
    call super_dispose;;
    assign (set_isDisposed true);;
    modify (with_connections (fun _ => [])).

(** [restart()] (lines 246-262): how the promise it returns is settled,
    given the button [result] the dialog is closed with and the way
    [restarted] the kernel settles the promise of its [restart()]. The
    callbacks read nothing but the [kernel] captured at the call. *)
Definition restart (result : IButtonItem) (restarted : Settled unit)
    : M World (Settled bool) :=
  through _context;;
  k <- gets kernel;;
  match k with
  | None => ret (Fulfilled false)
  | Some kernel =>
      call (showDialog "Restart Kernel?"
        "Do you want to restart the current kernel? All variables will be lost.");;
      if String.eqb (text result) "OK" then
        call (kernel_restart kernel);;
        ret (match restarted with
             | Fulfilled _ => Fulfilled true
             | Rejected reason => Rejected reason
             end)
      else ret (Fulfilled false)
  end.

(** [onContentChanged(sender, args)] (lines 285-301). *)
Definition onContentChanged (args : IChangedArgs) : M World unit :=
  if String.eqb (args_name args) "activeCellIndex" then
    cell <- childAt (oldValue args);;
    c <- property_of cell;;
    disconnect (editor c) textChanged;;
    disconnect (editor c) completionRequested;;
    cell <- childAt (newValue args);;
    c <- property_of cell;;
    connect (editor c) textChanged;;
    connect (editor c) completionRequested
  else ret tt.

(** [onTextChange(editor, change)] (lines 306-322). *)
Definition onTextChange (change : ITextChange.t) : M World unit :=
  let line :=
    js_index (split_newline (ITextChange.newValue change))
             (ITextChange.line change) in
  through _completion;;
  l <- property_of line;;
  match js_index l (ITextChange.ch change - 1) with
  | Some c =>
      if negb (is_whitespace c) then
        m <- gets completion_model;;
        match CompletionModel.original m with
        | Some _ => assign_model (CompletionModel.set_current (Some change))
        | None => ret tt
        end
      else
        assign_model (CompletionModel.set_options None);;
        assign_model (CompletionModel.set_original None);;
        assign_model (CompletionModel.set_cursor None)
  | None =>
      assign_model (CompletionModel.set_options None);;
      assign_model (CompletionModel.set_original None);;
      assign_model (CompletionModel.set_cursor None)
  end.

(** [onCompletionRequest(editor, change)] (lines 327-358), up to the call
    of [kernel.complete]; the two callbacks chained on its promise follow. *)
Definition onCompletionRequest (change : ICompletionRequest.t)
    : M World unit :=
  through _context;;
  k <- gets kernel;;
  match k with
  | None => ret tt
  | Some kernel =>
      let code :=
        js_index (split_newline (ICompletionRequest.currentValue change))
                 (ICompletionRequest.line change) in
      let cursor_pos := ICompletionRequest.ch change in
      n <- gets (fun w => _pendingComplete (this w));;
      assign (set__pendingComplete (js_increment n));;
      pendingComplete <- gets (fun w => _pendingComplete (this w));;
      through _completion;;
      call (kernel_complete kernel code cursor_pos);;
      register (complete_then pendingComplete change)
  end.

(** The first callback, [value => ...] (lines 339-355). *)
Definition on_complete (pendingComplete : Z) (value : ICompleteReply)
    : M World unit :=
  m <- gets completion_model;;
  if CompletionModel.isDisposed m then ret tt
  else
    n <- gets (fun w => _pendingComplete (this w));;
    if negb (pendingComplete =? n) then ret tt
    else if negb (String.eqb (status value) "ok") then ret tt
    else
      assign_model (CompletionModel.set_options (Some (matches value)));;
      assign_model
        (CompletionModel.set_cursor
           (Some (cursor_start value, cursor_end value))).

(** The second callback, [() => ...] (lines 355-357): it runs once the
    first has returned. *)
Definition on_complete_then (change : ICompletionRequest.t) : M World unit :=
  assign_model (CompletionModel.set_original (Some change)).

(** *** Running the callbacks *)

(** What each callback is called with. *)
Definition ReplyOf (cb : Callback) : Type :=
  match cb with
  | kernelInfo_then => IKernelInfo
  | getKernelSpec_then _ => IKernelSpec
  | complete_then _ _ => ICompleteReply
  | complete_then_then _ => unit
  end.

(** Running a callback once its promise is fulfilled. The promise returned
    by the first [then] of the completion chain is fulfilled when its
    callback returns, which makes the second callback ready. *)
Definition run (cb : Callback) : ReplyOf cb -> M World unit :=
  match cb with
  | kernelInfo_then => fun info => on_kernelInfo info
  | getKernelSpec_then kernel => fun spec => on_getKernelSpec kernel spec
  | complete_then pendingComplete change => fun value =>
      on_complete pendingComplete value;;
      register (complete_then_then change)
  | complete_then_then change => fun _ => on_complete_then change
  end.

(** The handling of one completion reply when nothing runs between its two
    callbacks. *)
Definition completion_response (pendingComplete : Z)
    (change : ICompletionRequest.t) (value : ICompleteReply) : M World unit :=
  on_complete pendingComplete value;;
  on_complete_then change.

(** An editor emitting a signal: the slot runs if it is connected. *)
Definition emit_textChanged (ed : nat) (change : ITextChange.t)
    : M World unit :=
  cs <- gets connections;;
  if decide ((ed, textChanged) ∈ cs) then onTextChange change else ret tt.

Definition emit_completionRequested (ed : nat)
    (change : ICompletionRequest.t) : M World unit :=
  cs <- gets connections;;
  if decide ((ed, completionRequested) ∈ cs)
  then onCompletionRequest change else ret tt.

(** ** [trustNotebook] *)

(** A cell model, as [trustNotebook] sees it: the value of its ['trusted']
    metadata cursor, a boolean, or [undefined] when it was never set. *)
Record ICellModel : Type := { trusted : option bool }.

(** [!v] is false for [true] only. *)
Definition truthy (v : option bool) : bool :=
  match v with
  | Some true => true
  | _ => false
  end.

(** The notebook model's cells and the log of dialogs shown. The list is
    the live list of the model: the callback reads it again. *)
Record Notebook : Type := {
  cells : list ICellModel;
  dialogs : list Call
}.

Definition dquote : string := String (ascii_of_nat 34) EmptyString.

Definition TRUST_MESSAGE : string :=
  ("<p>A trusted Jupyter notebook may execute hidden malicious code when you open it.<br>Selecting trust will re-render this notebook in a trusted state.<br>For more information, see the <a href="
   ++ dquote ++ "http://ipython.org/ipython-doc/2/notebook/security.html"
   ++ dquote ++ ">Jupyter security documentation</a>.</p>")%string.

(** The first loop (lines 417-423). *)
Definition all_trusted (cs : list ICellModel) : bool :=
  fold_left
    (fun (acc : bool) (cell : ICellModel) =>
       if negb (truthy (trusted cell)) then false else acc)
    cs true.

(** The callback of [showDialog(...).then] (lines 431-438). *)
Definition on_trust_dialog (result : IButtonItem) : M Notebook unit :=
  if String.eqb (text result) "OK" then
    modify (fun nb =>
      {| cells := map (fun _ => {| trusted := Some true |}) (cells nb);
         dialogs := dialogs nb |})
  else ret tt.

(** [trustNotebook(model, host)] (lines 414-439), given the button the
    dialog is closed with. *)
Definition trustNotebook (result : IButtonItem) : M Notebook unit :=
  cs <- gets cells;;
  if all_trusted cs then ret tt
  else
    modify (fun nb =>
      {| cells := cells nb;
         dialogs := (dialogs nb
                     ++ [showDialog "Trust this notebook?" TRUST_MESSAGE])%list |});;
    on_trust_dialog result.

(** ** [NotebookWidgetFactory] *)

Module NotebookWidgetFactory.

Record t : Type := { _rendermime : Ref; _clipboard : Ref }.

(** The fields of [INotebookModel] the factory reads. *)
Record INotebookModel : Type := {
  defaultKernelName : string;
  defaultKernelLanguage : string
}.

(** The factory and the panel it builds. *)
Definition State : Type := (t * World)%type.

Definition lift {A : Type} (c : M World A) : M State A :=
  fun s => match c (snd s) with
           | Return a w => Return a (fst s, w)
           | Throw e w => Throw e (fst s, w)
           end.

Definition isDisposed (f : t) : bool :=
  match _rendermime f with
  | null => true
  | object => false
  end.

Definition dispose : M State unit :=
  modify (fun s => ({| _rendermime := null; _clipboard := null |}, snd s)).

Section WithDocManager.
(** [context.kernelspecs] and [findKernel] belong to jupyter-js-ui. *)
Variable KernelSpecs : Type.
Variable findKernel : string -> string -> KernelSpecs -> string.

(** [createNew(model, context, kernel)] (lines 69-80). The new panel
    starts from the field initialisers. *)
Definition createNew (model : INotebookModel) (kernelspecs : KernelSpecs)
    (kernel : option IKernelId) : M State unit :=
  f <- gets fst;;
  (match _rendermime f with
   | object => lift (call rendermime_clone)
   | null => throw TypeError
   end);;
  (match kernel with
   | Some k => lift (call (context_changeKernel k))
   | None =>
       let name :=
         findKernel (defaultKernelName model)
                    (defaultKernelLanguage model) kernelspecs in
       lift (call (context_changeKernel
                     {| id_name := Some name; id := None |}))
   end);;
  lift (assign (fun _ => new_NotebookPanel));;
  lift (constructor object (_clipboard f));;
  lift (call populateDefaults).
End WithDocManager.

(** [beforeClose(model, context, widget)] (lines 88-91). *)
Definition beforeClose (model : INotebookModel) : M State (Settled bool) :=
  ret (Fulfilled true).

End NotebookWidgetFactory.

(** ** Sequences of events *)

(** What the three assignments of the reset branch of [onTextChange] make
    of the completion model. *)
Definition reset_completion (m : CompletionModel.t) : CompletionModel.t :=
  CompletionModel.set_cursor None
    (CompletionModel.set_original None (CompletionModel.set_options None m)).


(** Completion requests issued one after the other, none answered yet. *)
Fixpoint issue (changes : list ICompletionRequest.t) : M World unit :=
  match changes with
  | [] => ret tt
  | change :: rest => onCompletionRequest change;; issue rest
  end.

(** The tokens captured by the pending first callbacks, oldest first. *)
Fixpoint captured_tokens (cbs : list Callback) : list Z :=
  match cbs with
  | [] => []
  | complete_then pendingComplete _ :: rest =>
      pendingComplete :: captured_tokens rest
  | _ :: rest => captured_tokens rest
  end.

(** [n] consecutive integers from [start]. *)
Fixpoint consecutive (start : Z) (n : nat) : list Z :=
  match n with
  | O => []
  | S m => start :: consecutive (start + 1) m
  end.

Definition is_changeKernel (c : Call) : bool :=
  match c with
  | context_changeKernel _ => true
  | _ => false
  end.

Definition is_showDialog (c : Call) : bool :=
  match c with
  | showDialog _ _ => true
  | _ => false
  end.

Definition is_kernel_restart (c : Call) : bool :=
  match c with
  | kernel_restart _ => true
  | _ => false
  end.

(** How often a kind of call occurs in a log. *)
Definition count (kind : Call -> bool) (log : list Call) : nat :=
  length (List.filter kind log).

(** The world after the panel has moved its two slots from editor [old] to
    editor [new]. *)
Definition rebound (old new : nat) (w : World) : World :=
  state_of
    ((disconnect old textChanged;;
      disconnect old completionRequested;;
      connect new textChanged;;
      connect new completionRequested) w).

(** The three reasons for which the first completion callback returns
    early, when it starts in [w]. *)
Definition discarded (w : World) (pendingComplete : Z)
    (value : ICompleteReply) : Prop :=
  CompletionModel.isDisposed (completion_model w) = true \/
  pendingComplete <> _pendingComplete (this w) \/
  status value <> "ok".

(** What can happen to a constructed panel. A fulfilled promise is not
    required to be among the pending ones, so what holds of every event holds
    of those that can occur. *)
Inductive Event : Type :=
| textChanged_emitted (ed : nat) (change : ITextChange.t)
| completionRequested_emitted (ed : nat) (change : ICompletionRequest.t)
| activeCellIndex_changed (args : IChangedArgs)
| kernelChanged_emitted
| promise_fulfilled (cb : Callback) (reply : ReplyOf cb)
| dispose_called.

Definition handle (e : Event) : M World unit :=
  match e with
  | textChanged_emitted ed change => emit_textChanged ed change
  | completionRequested_emitted ed change =>
      emit_completionRequested ed change
  | activeCellIndex_changed args => onContentChanged args
  | kernelChanged_emitted =>
      slot <- gets kernelChanged_slot;;
      if slot then on_kernelChanged else ret tt
  | promise_fulfilled cb reply => run cb reply
  | dispose_called => dispose
  end.

(** Events handled one after the other. An exception ends the handling of
    its event and the next event finds the state it left. *)
Fixpoint handle_all (es : list Event) (w : World) : World :=
  match es with
  | [] => w
  | e :: rest => handle_all rest (state_of (handle e w))
  end.

(** A computation that leaves an observation of the world as it found it,
    whether it returns or throws. *)
Definition preserves {X A : Type} (obs : World -> X) (c : M World A) : Prop :=
  forall w, obs (state_of (c w)) = obs w.

(** The token, as an observation. *)
Definition token (w : World) : Z := _pendingComplete (this w).

(** The options and the cursor span of the completion model, as an
    observation. *)
Definition suggestions (w : World) : option (list string) * option (Z * Z) :=
  (CompletionModel.options (completion_model w),
   CompletionModel.cursor (completion_model w)).

(** ** Sample states *)

Definition python3 : IKernel := {| name := "python3" |}.

Definition live_panel : NotebookPanel :=
  {| _rendermime := object; _context := object; _model := object;
     _content := object; _toolbar := object; _clipboard := object;
     _completion := object; _pendingComplete := 0; isDisposed := false |}.

(** A constructed panel over three cells, the first one active, with a
    kernel attached. *)
Definition sample_world : World :=
  {| this := live_panel;
     kernel := Some python3;
     completion_model := CompletionModel.empty;
     children := [ {| editor := 10 |}; {| editor := 11 |}; {| editor := 12 |} ];
     activeCellIndex := 0;
     connections := [(10%nat, textChanged); (10%nat, completionRequested)];
     kernelChanged_slot := true;
     metadata := ∅;
     pending := [];
     calls := [] |}.

(** The same panel with no kernel attached. *)
Definition kernelless_world : World :=
  {| this := live_panel;
     kernel := None;
     completion_model := CompletionModel.empty;
     children := children sample_world;
     activeCellIndex := 0;
     connections := connections sample_world;
     kernelChanged_slot := true;
     metadata := ∅;
     pending := [];
     calls := [] |}.

(** The user has typed [pri] on the second line and asks for completion. *)
Definition request_pri : ICompletionRequest.t :=
  {| ICompletionRequest.ch := 3; ICompletionRequest.line := 1;
     ICompletionRequest.currentValue := units "import os" ++ [LF] ++ units "pri" |}.

(** One more letter. *)
Definition request_prin : ICompletionRequest.t :=
  {| ICompletionRequest.ch := 4; ICompletionRequest.line := 1;
     ICompletionRequest.currentValue := units "import os" ++ [LF] ++ units "prin" |}.

Definition typed_prin : ITextChange.t :=
  {| ITextChange.ch := 4; ITextChange.line := 1;
     ITextChange.newValue := units "import os" ++ [LF] ++ units "prin" |}.

(** A space after it. *)
Definition typed_space : ITextChange.t :=
  {| ITextChange.ch := 5; ITextChange.line := 1;
     ITextChange.newValue := units "import os" ++ [LF] ++ units "prin " |}.

Definition reply_print : ICompleteReply :=
  {| status := "ok"; matches := ["print"]; cursor_start := 0; cursor_end := 3 |}.

Definition reply_error : ICompleteReply :=
  {| status := "error"; matches := []; cursor_start := 0; cursor_end := 0 |}.

(** The state a computation leaves behind when started in [w]. *)
Definition after {A : Type} (c : M World A) (w : World) : World :=
  state_of (c w).

(** A completion session is open and the user has typed one more letter:
    [request_pri] was issued and answered with [reply_print], then
    [typed_prin] arrived. *)
Definition session_world : World :=
  after (onTextChange typed_prin)
    (after (completion_response 1 request_pri reply_print)
       (after (onCompletionRequest request_pri) sample_world)).

(** Two requests were issued and none is answered yet. *)
Definition two_requests_world : World :=
  after (issue [request_pri; request_prin]) sample_world.

(** The completion model was disposed while a request was pending. *)
Definition disposed_model_world : World :=
  with_completion_model
    (fun m =>
       {| CompletionModel.options := CompletionModel.options m;
          CompletionModel.original := CompletionModel.original m;
          CompletionModel.current := CompletionModel.current m;
          CompletionModel.cursor := CompletionModel.cursor m;
          CompletionModel.isDisposed := true |})
    (after (onCompletionRequest request_pri) sample_world).

Definition sample_notebook : Notebook :=
  {| cells := [ {| trusted := Some true |}; {| trusted := None |};
                {| trusted := Some false |} ];
     dialogs := [] |}.

Definition trusted_notebook : Notebook :=
  {| cells := [ {| trusted := Some true |}; {| trusted := Some true |} ];
     dialogs := [] |}.

Definition sample_factory : NotebookWidgetFactory.t :=
  {| NotebookWidgetFactory._rendermime := object;
     NotebookWidgetFactory._clipboard := object |}.

(** The active cell index changes from an index without a cell. *)
Definition from_missing_cell : IChangedArgs :=
  {| args_name := "activeCellIndex"; oldValue := 5; newValue := 1 |}.

(** The active cell index changes to an index without a cell. *)
Definition to_missing_cell : IChangedArgs :=
  {| args_name := "activeCellIndex"; oldValue := 0; newValue := 5 |}.

Definition from_first_to_third : IChangedArgs :=
  {| args_name := "activeCellIndex"; oldValue := 0; newValue := 2 |}.

(** No panel has been constructed yet and the notebook has no cell. *)
Definition cellless_world : World :=
  {| this := new_NotebookPanel;
     kernel := None;
     completion_model := CompletionModel.empty;
     children := [];
     activeCellIndex := 0;
     connections := [];
     kernelChanged_slot := false;
     metadata := ∅;
     pending := [];
     calls := [] |}.

(** A world in which no panel has been constructed yet. *)
Definition blank_world : World :=
  {| this := new_NotebookPanel;
     kernel := None;
     completion_model := CompletionModel.empty;
     children := children sample_world;
     activeCellIndex := 0;
     connections := [];
     kernelChanged_slot := false;
     metadata := ∅;
     pending := [];
     calls := [] |}.

(** ** The title and the dirty class (constructor, lines 151-166) *)

(** [s.split(sep)] for a separator of one unit. *)
Fixpoint split_on (sep : N) (s : JsString) : list JsString :=
  match s with
  | [] => [[]]
  | c :: rest =>
      if (c =? sep)%N then [] :: split_on sep rest
      else match split_on sep rest with
           | [] => [[c]]
           | l :: ls => (c :: l) :: ls
           end
  end.

Definition SLASH : N := 47%N.

(** [path.split('/').pop()]: [pop] gives [undefined] on an empty array. *)
Definition last_segment (path : JsString) : option JsString :=
  last (split_on SLASH path).

Definition DIRTY_CLASS : JsString := units "jp-mod-dirty".

(** Whether [s] begins with [pat]. *)
Fixpoint starts_with (pat s : JsString) : bool :=
  match pat, s with
  | [], _ => true
  | _ :: _, [] => false
  | p :: pat', c :: s' => (p =? c)%N && starts_with pat' s'
  end.

(** [s.replace(pat, repl)] for a string pattern and a replacement without
    [$]: the first occurrence of [pat] is replaced, the others stay. *)
Fixpoint replace_first (pat repl s : JsString) : JsString :=
  match s with
  | [] => if starts_with pat [] then repl else []
  | c :: rest =>
      if starts_with pat s then (repl ++ drop (length pat) s)%list
      else c :: replace_first pat repl rest
  end.

(** [this.title]: its text and its class name. *)
Record Title : Type := {
  title_text : option JsString;
  className : JsString
}.

(** The assignment of line 152, and the listener of [context.pathChanged]
    (lines 153-155), which makes the same assignment. *)
Definition on_pathChanged (path : JsString) (t : Title) : Title :=
  {| title_text := last_segment path; className := className t |}.

(** The arguments of the notebook model's [stateChanged], as the listener
    reads them: [newValue] is tested for truth. *)
Record IModelChangedArgs : Type := {
  changed_name : string;
  changed_newValue : bool
}.

(** The listener of [model.stateChanged] (lines 158-166). *)
Definition on_model_stateChanged (args : IModelChangedArgs) (t : Title)
    : Title :=
  if String.eqb (changed_name args) "dirty" then
    if changed_newValue args then
      {| title_text := title_text t;
         className := (className t ++ units " " ++ DIRTY_CLASS)%list |}
    else
      {| title_text := title_text t;
         className := replace_first DIRTY_CLASS [] (className t) |}
  else t.

(** The dirty flag going through the values [flags], one event each. *)
Fixpoint dirty_events (flags : list bool) (t : Title) : Title :=
  match flags with
  | [] => t
  | b :: rest =>
      dirty_events rest
        (on_model_stateChanged
           {| changed_name := "dirty"; changed_newValue := b |} t)
  end.

(** [pat] occurs in [s]. *)
Definition occurs (pat s : JsString) : Prop :=
  exists pre post, s = (pre ++ pat ++ post)%list.

(** ** [onCompletionSelect] *)

(** The patch [createPatch] returns. *)
Record ICompletionPatch : Type := { patch_text : JsString; position : Z }.

(** The CodeMirror document of a cell editor: its text, and the index its
    cursor was last set from. *)
Record Doc : Type := { doc_value : JsString; doc_cursor : Z }.

(** The panel with the documents of the editors, by editor. *)
Definition Desk : Type := (World * gmap nat Doc)%type.

Definition on_world {A : Type} (c : M World A) : M Desk A :=
  fun s => match c (fst s) with
           | Return a w => Return a (w, snd s)
           | Throw e w => Throw e (w, snd s)
           end.

Section WithCompletionModel.
(** [createPatch] belongs to the completion model, which is not among the
    sources; it may return [null]. *)
Variable createPatch : CompletionModel.t -> string -> option ICompletionPatch.

(** [onCompletionSelect(widget, value)] (lines 363-370). *)
Definition onCompletionSelect (value : string) : M Desk unit :=
  on_world (through _completion);;
  m <- on_world (gets completion_model);;
  let patch := createPatch m value in
  index <- on_world (gets activeCellIndex);;
  cell <- on_world (childAt index);;
  c <- property_of cell;;
  p <- property_of patch;;
  modify (fun s : Desk =>
    (fst s,
     <[editor c := {| doc_value := patch_text p;
                      doc_cursor := position p |}]> (snd s))).
End WithCompletionModel.

(** ** Events with undivided replies *)

(** As [handle], with the two callbacks of a completion reply run together:
    nothing else runs between them when no other promise is fulfilled in
    the same turn. *)
Definition handle_settled (e : Event) : M World unit :=
  match e with
  | promise_fulfilled cb reply =>
      match cb return ReplyOf cb -> M World unit with
      | complete_then pendingComplete change => fun value =>
          completion_response pendingComplete change value
      | cb' => fun r => run cb' r
      end reply
  | _ => handle e
  end.

Fixpoint handle_all_settled (es : list Event) (w : World) : World :=
  match es with
  | [] => w
  | e :: rest => handle_all_settled rest (state_of (handle_settled e w))
  end.

(** Options are offered only while a session is open. *)
Definition options_need_original (w : World) : Prop :=
  CompletionModel.options (completion_model w) <> None ->
  CompletionModel.original (completion_model w) <> None.

(** Exactly the two signals of editor [ed] are connected. *)
Definition bound_to (ed : nat) (w : World) : Prop :=
  connections w = [(ed, textChanged); (ed, completionRequested)].

(** ** More sample states *)

Definition sample_title : Title :=
  {| title_text := None; className := units "p-Title" |}.

Definition sample_path : JsString := units "work/2016/analysis.ipynb".

(** The request addresses a line the buffer does not have. *)
Definition request_beyond : ICompletionRequest.t :=
  {| ICompletionRequest.ch := 0; ICompletionRequest.line := 7;
     ICompletionRequest.currentValue := units "pri" |}.

Definition typed_beyond : ITextChange.t :=
  {| ITextChange.ch := 1; ITextChange.line := 7;
     ITextChange.newValue := units "pri" |}.

(** The cursor is at the start of the second line. *)
Definition typed_at_line_start : ITextChange.t :=
  {| ITextChange.ch := 0; ITextChange.line := 1;
     ITextChange.newValue := units "import os" ++ [LF] ++ units "prin" |}.

Definition sample_docs : gmap nat Doc :=
  {[ 10%nat := {| doc_value := units "pri"; doc_cursor := 3 |};
     11%nat := {| doc_value := units "x = 1"; doc_cursor := 0 |} ]}.

(** A [createPatch] for the samples: the selected value as the whole text
    when a session is open. *)
Definition sample_createPatch (m : CompletionModel.t) (value : string)
    : option ICompletionPatch :=
  match CompletionModel.original m with
  | Some _ =>
      Some {| patch_text := units value;
              position := Z.of_nat (String.length value) |}
  | None => None
  end.

Definition julia : IKernel := {| name := "julia" |}.

Definition disposed_factory : NotebookWidgetFactory.t :=
  {| NotebookWidgetFactory._rendermime := null;
     NotebookWidgetFactory._clipboard := null |}.

(** [a.join(sep)] for a separator of one unit. *)
Fixpoint join_with (sep : N) (ls : list JsString) : JsString :=
  match ls with
  | [] => []
  | l :: rest =>
      match rest with
      | [] => l
      | _ :: _ => (l ++ sep :: join_with sep rest)%list
      end
  end.

(** How many units of [s] are [c]. *)
Definition occurrences (c : N) (s : JsString) : nat :=
  length (List.filter (fun x => (x =? c)%N) s).

(** The events whose handlers write the completion model. *)
Definition touches_model (e : Event) : bool :=
  match e with
  | textChanged_emitted _ _ => true
  | promise_fulfilled (complete_then _ _) _ => true
  | promise_fulfilled (complete_then_then _) _ => true
  | _ => false
  end.

(** [context.kernel] becoming [k]: the context is changed from outside the
    panel. *)
Definition with_kernel (k : option IKernel) (w : World) : World :=
  {| this := this w; kernel := k;
     completion_model := completion_model w; children := children w;
     activeCellIndex := activeCellIndex w; connections := connections w;
     kernelChanged_slot := kernelChanged_slot w; metadata := metadata w;
     pending := pending w; calls := calls w |}.

(** * Properties *)

(** Unfolds the monad and the primitive computations. *)
Ltac fields :=
  cbn [this kernel completion_model children activeCellIndex connections
       kernelChanged_slot metadata pending calls
       with_this with_completion_model with_connections
       with_kernelChanged_slot with_metadata with_pending with_calls
       _rendermime _context _model _content _toolbar _clipboard _completion
       _pendingComplete isDisposed
       set__rendermime set__context set__model set__content set__toolbar
       set__clipboard set__completion set__pendingComplete set_isDisposed
       CompletionModel.options CompletionModel.original
       CompletionModel.current CompletionModel.cursor
       CompletionModel.isDisposed CompletionModel.set_options
       CompletionModel.set_original CompletionModel.set_current
       CompletionModel.set_cursor state_of after fst snd negb] in *.

Ltac js :=
  unfold completion_response, on_complete, on_complete_then, connect,
    disconnect, childAt, setMetadata, assign, assign_model, through, call,
    register, property_of, bind, ret, throw, gets, modify in *;
  fields.

(** ** Lines of a buffer *)

Lemma split_newline_nonempty (s : JsString) : split_newline s <> [].
Proof.
  destruct s as [|c rest]; simpl; [discriminate|].
  destruct (c =? LF)%N; [discriminate|].
  destruct (split_newline rest); discriminate.
Qed.

(** No segment of [split_newline] holds a line feed: a line sent to the
    kernel is a single line. *)
Lemma split_newline_no_LF (s : JsString) :
  Forall (fun l : JsString => ~ In LF l) (split_newline s).
Proof.
  induction s as [|c rest IH]; simpl.
  - constructor; [intros []|constructor].
  - destruct (N.eqb_spec c LF) as [->|Hne].
    + constructor; [intros []|exact IH].
    + destruct (split_newline rest) as [|l ls].
      * constructor; [|constructor]. intros [H|[]]. congruence.
      * inversion IH as [|? ? Hl Hls]; subst. constructor; [|exact Hls].
        intros [H|H]; [congruence|auto].
Qed.

Lemma js_index_In {A : Type} (a : list A) (i : Z) (x : A) :
  js_index a i = Some x -> In x a.
Proof.
  unfold js_index. destruct (i <? 0); [discriminate|].
  intros H. apply list_elem_of_In. eapply list_elem_of_lookup_2. exact H.
Qed.

Lemma sent_line_is_single (s : JsString) (i : Z) (code : JsString) :
  js_index (split_newline s) i = Some code -> ~ In LF code.
Proof.
  intros H. apply js_index_In in H.
  pose proof (split_newline_no_LF s) as Hall.
  rewrite List.Forall_forall in Hall. exact (Hall _ H).
Qed.

(** ** [onTextChange] *)

Lemma onTextChange_reset (w : World) (change : ITextChange.t) (l : JsString) :
  _completion (this w) = object ->
  js_index (split_newline (ITextChange.newValue change))
           (ITextChange.line change) = Some l ->
  (js_index l (ITextChange.ch change - 1) = None \/
   exists c, js_index l (ITextChange.ch change - 1) = Some c /\
             is_whitespace c = true) ->
  onTextChange change w = Return tt (with_completion_model reset_completion w).
Proof.
  intros Hc Hl Hch. unfold onTextChange. js. rewrite Hc, Hl.
  destruct Hch as [Hnone | (c & Hsome & Hws)].
  - rewrite Hnone. reflexivity.
  - rewrite Hsome, Hws. reflexivity.
Qed.

Lemma onTextChange_refresh (w : World) (change : ITextChange.t) (l : JsString)
    (c : N) :
  _completion (this w) = object ->
  js_index (split_newline (ITextChange.newValue change))
           (ITextChange.line change) = Some l ->
  js_index l (ITextChange.ch change - 1) = Some c ->
  is_whitespace c = false ->
  onTextChange change w =
  Return tt
    (match CompletionModel.original (completion_model w) with
     | Some _ =>
         with_completion_model (CompletionModel.set_current (Some change)) w
     | None => w
     end).
Proof.
  intros Hc Hl Hch Hws. unfold onTextChange. js. rewrite Hc, Hl, Hch, Hws.
  simpl. destruct (CompletionModel.original (completion_model w)); reflexivity.
Qed.

(** C3. For a text change whose line exists in the new text, on a panel
    that still holds its completion widget: when the character before the
    cursor exists and is not white space, [onTextChange] sets [current] to
    the change if [original] is set and changes nothing if it is not; when
    that character is missing or white space, it returns with the whole
    completion state absent, [options], [original], [current] and [cursor],
    whatever the state was. In both cases nothing but the completion model
    changes: no call is made to the kernel and no callback is registered. *)
Theorem onTextChange_refreshes_or_resets
    (w : World) (change : ITextChange.t) (l : JsString) :
  _completion (this w) = object ->
  js_index (split_newline (ITextChange.newValue change))
           (ITextChange.line change) = Some l ->
  (forall c,
      js_index l (ITextChange.ch change - 1) = Some c ->
      is_whitespace c = false ->
      (forall o,
          CompletionModel.original (completion_model w) = Some o ->
          onTextChange change w =
          Return tt
            (with_completion_model
               (CompletionModel.set_current (Some change)) w) /\
          CompletionModel.current
            (completion_model
               (with_completion_model
                  (CompletionModel.set_current (Some change)) w)) =
            Some change) /\
      (CompletionModel.original (completion_model w) = None ->
       onTextChange change w = Return tt w)) /\
  ((js_index l (ITextChange.ch change - 1) = None \/
    exists c, js_index l (ITextChange.ch change - 1) = Some c /\
              is_whitespace c = true) ->
   exists w',
     onTextChange change w = Return tt w' /\
     CompletionModel.options (completion_model w') = None /\
     CompletionModel.original (completion_model w') = None /\
     CompletionModel.current (completion_model w') = None /\
     CompletionModel.cursor (completion_model w') = None /\
     this w' = this w /\ calls w' = calls w /\ pending w' = pending w).
Proof.
  intros Hc Hl. split.
  - intros c Hch Hws.
    pose proof (onTextChange_refresh w change l c Hc Hl Hch Hws) as E.
    split.
    + intros o Ho. rewrite Ho in E. split; [exact E | reflexivity].
    + intros Ho. rewrite Ho in E. exact E.
  - intros Hch. exists (with_completion_model reset_completion w).
    split; [exact (onTextChange_reset w change l Hc Hl Hch)|].
    repeat split.
Qed.

(** C3 at [session_world]: one more letter refreshes [current]; a space
    then leaves the whole state absent. *)
Lemma onTextChange_refreshes_or_resets_witness :
  onTextChange typed_prin session_world =
  Return tt
    (with_completion_model
       (CompletionModel.set_current (Some typed_prin)) session_world) /\
  exists w',
    onTextChange typed_space session_world = Return tt w' /\
    CompletionModel.options (completion_model w') = None /\
    CompletionModel.original (completion_model w') = None /\
    CompletionModel.current (completion_model w') = None /\
    CompletionModel.cursor (completion_model w') = None /\
    this w' = this session_world /\ calls w' = calls session_world /\
    pending w' = pending session_world.
Proof.
  split.
  - exact (proj1 (proj1 (proj1 (onTextChange_refreshes_or_resets
                session_world typed_prin (units "prin") eq_refl eq_refl)
                110%N eq_refl eq_refl) request_pri eq_refl)).
  - refine (proj2 (onTextChange_refreshes_or_resets
              session_world typed_space (units "prin ") _ _) _);
      [reflexivity | reflexivity |].
    right. exists 32%N. split; reflexivity.
Defined.

(** ** [onCompletionRequest] *)

Lemma js_increment_exact (n : Z) : n < MAX_EXACT -> js_increment n = n + 1.
Proof.
  intros H. unfold js_increment.
  destruct (Z.ltb_spec n MAX_EXACT); [reflexivity|lia].
Qed.

Lemma onCompletionRequest_no_kernel (w : World)
    (change : ICompletionRequest.t) :
  _context (this w) = object ->
  kernel w = None ->
  onCompletionRequest change w = Return tt w.
Proof.
  intros Hctx Hk. unfold onCompletionRequest. js. rewrite Hctx, Hk.
  reflexivity.
Qed.

Lemma onCompletionRequest_issues (w : World) (change : ICompletionRequest.t)
    (k : IKernel) :
  _context (this w) = object ->
  _completion (this w) = object ->
  kernel w = Some k ->
  onCompletionRequest change w =
  Return tt
    (with_pending
       (fun l =>
          (l ++ [complete_then (js_increment (_pendingComplete (this w)))
                   change])%list)
       (with_calls
          (fun l =>
             (l ++ [kernel_complete k
                      (js_index
                         (split_newline
                            (ICompletionRequest.currentValue change))
                         (ICompletionRequest.line change))
                      (ICompletionRequest.ch change)])%list)
          (with_this
             (set__pendingComplete (js_increment (_pendingComplete (this w))))
             w))).
Proof.
  intros Hctx Hcmp Hk. unfold onCompletionRequest. js.
  rewrite Hctx, Hk, Hcmp. reflexivity.
Qed.

Lemma captured_tokens_app (l1 l2 : list Callback) :
  captured_tokens (l1 ++ l2) = (captured_tokens l1 ++ captured_tokens l2)%list.
Proof.
  induction l1 as [|cb l1 IH]; simpl; [reflexivity|].
  destruct cb; simpl; rewrite IH; reflexivity.
Qed.

Lemma consecutive_lower_bound (start : Z) (n : nat) :
  Forall (fun x => start <= x) (consecutive start n).
Proof.
  revert start. induction n as [|n IH]; intros start; simpl; constructor.
  - lia.
  - eapply List.Forall_impl; [|apply IH]. simpl. intros; lia.
Qed.

Lemma consecutive_sorted (start : Z) (n : nat) :
  StronglySorted Z.lt (consecutive start n).
Proof.
  revert start. induction n as [|n IH]; intros start; simpl; constructor.
  - apply IH.
  - eapply List.Forall_impl; [|apply (consecutive_lower_bound (start + 1) n)].
    simpl. intros; lia.
Qed.

(** Requests issued in a row capture consecutive tokens. *)
Lemma issue_tokens (changes : list ICompletionRequest.t) :
  forall (w : World) (k : IKernel),
    _context (this w) = object ->
    _completion (this w) = object ->
    kernel w = Some k ->
    _pendingComplete (this w) + Z.of_nat (length changes) <= MAX_EXACT ->
    exists w',
      issue changes w = Return tt w' /\
      _pendingComplete (this w') =
        _pendingComplete (this w) + Z.of_nat (length changes) /\
      captured_tokens (pending w') =
        (captured_tokens (pending w) ++
         consecutive (_pendingComplete (this w) + 1) (length changes))%list /\
      completion_model w' = completion_model w.
Proof.
  induction changes as [|change rest IH]; intros w k Hctx Hcmp Hk Hle.
  - exists w. simpl. rewrite Z.add_0_r, app_nil_r. repeat split.
  - simpl length in *. simpl issue. unfold bind at 1.
    rewrite (onCompletionRequest_issues w change k Hctx Hcmp Hk).
    rewrite js_increment_exact by lia.
    set (w1 := with_pending _ _).
    destruct (IH w1 k) as (w' & Hrun & Htok & Hcap & Hm);
      [exact Hctx | exact Hcmp | exact Hk | simpl; lia |].
    exists w'. split; [exact Hrun|]. split; [simpl in Htok; lia|].
    split; [|exact Hm].
    rewrite Hcap. simpl. rewrite captured_tokens_app. simpl.
    rewrite <- app_assoc. reflexivity.
Qed.

(** C8. With the panel's context in place: without a kernel
    [onCompletionRequest] changes nothing and calls nothing; with a kernel
    (and the token below 2^53, where numbers count exactly) it makes one
    call to [kernel.complete], whose code is the line of the buffer at
    [change.line] alone, which holds no line feed, and whose cursor position
    is [change.ch]; the token grows by exactly one and the callback captures
    the grown value; the completion model is not touched. Requests issued in
    a row capture consecutive, hence strictly increasing, tokens. *)
Theorem onCompletionRequest_sends_line_and_advances_token
    (w : World) (change : ICompletionRequest.t) :
  _context (this w) = object ->
  (kernel w = None -> onCompletionRequest change w = Return tt w) /\
  (forall k,
      kernel w = Some k ->
      _completion (this w) = object ->
      _pendingComplete (this w) < MAX_EXACT ->
      exists w',
        onCompletionRequest change w = Return tt w' /\
        _pendingComplete (this w') = _pendingComplete (this w) + 1 /\
        calls w' =
          (calls w ++
           [kernel_complete k
              (js_index
                 (split_newline (ICompletionRequest.currentValue change))
                 (ICompletionRequest.line change))
              (ICompletionRequest.ch change)])%list /\
        pending w' =
          (pending w ++
           [complete_then (_pendingComplete (this w')) change])%list /\
        completion_model w' = completion_model w /\
        (forall code,
            js_index (split_newline (ICompletionRequest.currentValue change))
                     (ICompletionRequest.line change) = Some code ->
            ~ In LF code)) /\
  (forall k changes,
      kernel w = Some k ->
      _completion (this w) = object ->
      _pendingComplete (this w) + Z.of_nat (length changes) <= MAX_EXACT ->
      exists w',
        issue changes w = Return tt w' /\
        captured_tokens (pending w') =
          (captured_tokens (pending w) ++
           consecutive (_pendingComplete (this w) + 1) (length changes))%list /\
        StronglySorted Z.lt
          (consecutive (_pendingComplete (this w) + 1) (length changes))).
Proof.
  intros Hctx. split; [|split].
  - intros Hk. exact (onCompletionRequest_no_kernel w change Hctx Hk).
  - intros k Hk Hcmp Hlt.
    eexists. split; [exact (onCompletionRequest_issues w change k Hctx Hcmp Hk)|].
    simpl. rewrite js_increment_exact by exact Hlt.
    repeat split. intros code Hcode.
    exact (sent_line_is_single _ _ _ Hcode).
  - intros k changes Hk Hcmp Hle.
    destruct (issue_tokens changes w k Hctx Hcmp Hk Hle)
      as (w' & Hrun & _ & Hcap & _).
    exists w'. split; [exact Hrun|]. split; [exact Hcap|].
    apply consecutive_sorted.
Qed.

(** C8 at [kernelless_world] and at [sample_world]. *)
Lemma onCompletionRequest_sends_line_and_advances_token_witness :
  onCompletionRequest request_pri kernelless_world =
    Return tt kernelless_world /\
  (exists w',
      onCompletionRequest request_pri sample_world = Return tt w' /\
      _pendingComplete (this w') = _pendingComplete (this sample_world) + 1 /\
      calls w' =
        (calls sample_world ++ [kernel_complete python3 (Some (units "pri")) 3])%list /\
      pending w' =
        (pending sample_world ++
         [complete_then (_pendingComplete (this w')) request_pri])%list /\
      completion_model w' = completion_model sample_world /\
      (forall code,
          js_index (split_newline (ICompletionRequest.currentValue request_pri))
                   (ICompletionRequest.line request_pri) = Some code ->
          ~ In LF code)) /\
  (exists w',
      issue [request_pri; request_prin] sample_world = Return tt w' /\
      captured_tokens (pending w') =
        (captured_tokens (pending sample_world) ++ consecutive (0 + 1) 2)%list /\
      StronglySorted Z.lt (consecutive (0 + 1) 2)).
Proof.
  split; [|split].
  - refine (proj1 (onCompletionRequest_sends_line_and_advances_token
              kernelless_world request_pri _) _); reflexivity.
  - refine (proj1 (proj2 (onCompletionRequest_sends_line_and_advances_token
              sample_world request_pri _)) python3 _ _ _); reflexivity.
  - refine (proj2 (proj2 (onCompletionRequest_sends_line_and_advances_token
              sample_world request_pri _)) python3 [request_pri; request_prin]
              _ _ _); try reflexivity.
    vm_compute. discriminate.
Defined.

(** ** The completion callbacks *)

(** A discarded reply leaves the first callback without effect. *)
Lemma on_complete_discarded (w : World) (pendingComplete : Z)
    (value : ICompleteReply) :
  discarded w pendingComplete value ->
  on_complete pendingComplete value w = Return tt w.
Proof.
  intros Hd. unfold discarded in Hd. js.
  destruct (CompletionModel.isDisposed (completion_model w)) eqn:Hdisp;
    [reflexivity|].
  destruct (Z.eqb_spec pendingComplete (_pendingComplete (this w)))
    as [Heq|Hne]; simpl; [|reflexivity].
  destruct (String.eqb_spec (status value) "ok") as [Hok|Hno]; simpl;
    [|reflexivity].
  destruct Hd as [Hd|[Hd|Hd]]; congruence.
Qed.

(** An accepted reply: [options] and [cursor] are set, [original] is not
    yet. *)
Lemma on_complete_accepted (w : World) (pendingComplete : Z)
    (value : ICompleteReply) :
  CompletionModel.isDisposed (completion_model w) = false ->
  pendingComplete = _pendingComplete (this w) ->
  status value = "ok" ->
  on_complete pendingComplete value w =
  Return tt
    (with_completion_model
       (fun m =>
          CompletionModel.set_cursor
            (Some (cursor_start value, cursor_end value))
            (CompletionModel.set_options (Some (matches value)) m))
       w).
Proof.
  intros Hdisp Heq Hok. js. rewrite Hdisp, Heq, Z.eqb_refl, Hok. simpl.
  reflexivity.
Qed.

(** The second callback runs whatever the first one did: after a discarded
    reply the state is the one an assignment of the request to [original]
    makes of the state before. *)
Lemma completion_response_discarded (w : World) (pendingComplete : Z)
    (change : ICompletionRequest.t) (value : ICompleteReply) :
  discarded w pendingComplete value ->
  completion_response pendingComplete change value w =
  Return tt
    (with_completion_model (CompletionModel.set_original (Some change)) w).
Proof.
  intros Hd. unfold completion_response, bind.
  rewrite (on_complete_discarded w pendingComplete value Hd). reflexivity.
Qed.

(** The queue view: running the first callback makes the second one
    pending, discarded reply or not. *)
Lemma run_complete_then_registers (w : World) (pendingComplete : Z)
    (change : ICompletionRequest.t) (value : ICompleteReply) :
  exists w1,
    on_complete pendingComplete value w = Return tt w1 /\
    run (complete_then pendingComplete change) value w =
    Return tt
      (with_pending (fun l => (l ++ [complete_then_then change])%list) w1).
Proof.
  simpl run. unfold bind. js.
  destruct (CompletionModel.isDisposed (completion_model w));
    [eexists; split; reflexivity|].
  destruct (pendingComplete =? _pendingComplete (this w)); simpl;
    [|eexists; split; reflexivity].
  destruct (String.eqb (status value) "ok"); simpl;
    eexists; split; reflexivity.
Qed.

(** C1, at the failing inputs. Two requests are pending and the token
    is 2. The reply to the first request (token 1) is stale, yet after its
    handling [original] holds the first request; a reply with status
    ['error'] to the latest request sets [original] too; and so does a reply
    that arrives after the completion model was disposed. In all three cases
    [original] was absent before. *)
Theorem discarded_response_sets_original :
  _pendingComplete (this two_requests_world) = 2 /\
  CompletionModel.original (completion_model two_requests_world) = None /\
  discarded two_requests_world 1 reply_print /\
  CompletionModel.original
    (completion_model
       (after (completion_response 1 request_pri reply_print)
          two_requests_world)) = Some request_pri /\
  discarded two_requests_world 2 reply_error /\
  CompletionModel.original
    (completion_model
       (after (completion_response 2 request_prin reply_error)
          two_requests_world)) = Some request_prin /\
  CompletionModel.original (completion_model disposed_model_world) = None /\
  discarded disposed_model_world 1 reply_print /\
  CompletionModel.original
    (completion_model
       (after (completion_response 1 request_pri reply_print)
          disposed_model_world)) = Some request_pri.
Proof.
  repeat split.
  - right; left. vm_compute. discriminate.
  - right; right. vm_compute. discriminate.
  - left. reflexivity.
Qed.

(** C2, at the failing input. One request is pending and its reply has
    status ['error']: the first callback returns early, the second sets
    [original], and the handling ends with [original] set to the request
    while [options] and [cursor] are absent. *)
Theorem original_set_without_options :
  let w := after (onCompletionRequest request_pri) sample_world in
  let w' := after (completion_response 1 request_pri reply_error) w in
  _pendingComplete (this w) = 1 /\
  completion_response 1 request_pri reply_error w = Return tt w' /\
  CompletionModel.original (completion_model w') = Some request_pri /\
  CompletionModel.options (completion_model w') = None /\
  CompletionModel.cursor (completion_model w') = None.
Proof. repeat split. Qed.

(** ** [onContentChanged] *)

(** With a cell at both indices the two slots move from the old editor to
    the new one: one disconnection and one connection per signal. *)
Lemma onContentChanged_rebinds (w : World) (args : IChangedArgs)
    (c_old c_new : CellWidget) :
  args_name args = "activeCellIndex" ->
  _content (this w) = object ->
  js_index (children w) (oldValue args) = Some c_old ->
  js_index (children w) (newValue args) = Some c_new ->
  onContentChanged args w =
  Return tt (rebound (editor c_old) (editor c_new) w).
Proof.
  intros Hname Hcontent Hold Hnew. unfold onContentChanged, rebound.
  rewrite Hname, String.eqb_refl. js. rewrite Hcontent, Hold. fields.
  rewrite Hcontent. fields. rewrite Hnew. reflexivity.
Qed.

Lemma rebound_calls (w : World) (old new : nat) :
  calls (rebound old new w) =
  (calls w ++ [signal_disconnect old textChanged;
               signal_disconnect old completionRequested;
               signal_connect new textChanged;
               signal_connect new completionRequested])%list.
Proof.
  unfold rebound. js. rewrite <- !app_assoc. reflexivity.
Qed.

(** After the rebinding the new editor's signals are connected, and the old
    editor's are not unless it is the new one. *)
Lemma rebound_connections (w : World) (old new : nat) (s : EditorSignal) :
  (new, s) ∈ connections (rebound old new w) /\
  (old <> new -> (old, s) ∉ connections (rebound old new w)).
Proof.
  unfold rebound. js.
  set (cs2 := filter _ (filter _ (connections w))).
  assert (Hold : forall s', old <> new -> (old, s') ∉ cs2).
  { intros s' Hne Hin. subst cs2.
    apply list_elem_of_filter in Hin as [H2 Hin].
    apply list_elem_of_filter in Hin as [H1 _].
    destruct s'; [apply H1 | apply H2]; reflexivity. }
  split.
  - destruct (decide ((new, textChanged) ∈ cs2)) as [Ht|Ht];
      [destruct (decide ((new, completionRequested) ∈ cs2)) as [Hc|Hc]
      |destruct (decide ((new, completionRequested)
                           ∈ (cs2 ++ [(new, textChanged)])%list)) as [Hc|Hc]];
      destruct s; try assumption;
      rewrite ?elem_of_app, ?list_elem_of_singleton; auto.
  - intros Hne.
    destruct (decide ((new, textChanged) ∈ cs2)) as [Ht|Ht].
    + destruct (decide ((new, completionRequested) ∈ cs2)) as [Hc|Hc].
      * apply Hold, Hne.
      * intros Hin. apply elem_of_app in Hin as [Hin|Hin].
        -- exact (Hold s Hne Hin).
        -- apply list_elem_of_singleton in Hin. congruence.
    + destruct (decide ((new, completionRequested)
                          ∈ (cs2 ++ [(new, textChanged)])%list)) as [Hc|Hc].
      * intros Hin. apply elem_of_app in Hin as [Hin|Hin].
        -- exact (Hold s Hne Hin).
        -- apply list_elem_of_singleton in Hin. congruence.
      * intros Hin. apply elem_of_app in Hin as [Hin|Hin].
        -- apply elem_of_app in Hin as [Hin|Hin].
           ++ exact (Hold s Hne Hin).
           ++ apply list_elem_of_singleton in Hin. congruence.
        -- apply list_elem_of_singleton in Hin. congruence.
Qed.

(** An event delivered to the new editor right after the rebinding reaches
    [onTextChange]. *)
Lemma rebound_delivers (w : World) (old new : nat) (change : ITextChange.t) :
  emit_textChanged new change (rebound old new w) =
  onTextChange change (rebound old new w).
Proof.
  unfold emit_textChanged, bind, gets.
  destruct (decide ((new, textChanged) ∈ connections (rebound old new w)))
    as [_|Hnot]; [reflexivity|].
  exfalso. apply Hnot. apply rebound_connections.
Qed.

(** C4, at the failing inputs. In a notebook of three cells, a change of
    the active cell index from index 5 throws a [TypeError] at
    [cell.editor] and leaves every connection as it was; a change from
    index 0 to index 5 disconnects the old editor and then throws, so that
    no editor is connected any more. The constructor, which makes the same
    lookup, tests the cell first and returns when there is none. *)
Theorem onContentChanged_throws_on_missing_cell :
  js_index (children sample_world) (oldValue from_missing_cell) = None /\
  onContentChanged from_missing_cell sample_world =
    Throw TypeError sample_world /\
  js_index (children sample_world) (newValue to_missing_cell) = None /\
  onContentChanged to_missing_cell sample_world =
    Throw TypeError
      (with_connections (fun _ => [])
         (with_calls
            (fun _ => [signal_disconnect 10 textChanged;
                       signal_disconnect 10 completionRequested])
            sample_world)) /\
  js_index (children cellless_world) (activeCellIndex cellless_world) = None /\
  connections (after (constructor object object) cellless_world) = [] /\
  constructor object object cellless_world =
    Return tt (after (constructor object object) cellless_world).
Proof.
  vm_compute. repeat split.
Qed.

(** ** [restart] *)

Lemma restart_no_kernel (w : World) (result : IButtonItem)
    (restarted : Settled unit) :
  _context (this w) = object ->
  kernel w = None ->
  restart result restarted w = Return (Fulfilled false) w.
Proof.
  intros Hctx Hk. unfold restart. js. rewrite Hctx, Hk. reflexivity.
Qed.

Lemma restart_accepted (w : World) (k : IKernel) (result : IButtonItem)
    (restarted : Settled unit) :
  _context (this w) = object ->
  kernel w = Some k ->
  text result = "OK" ->
  restart result restarted w =
  Return
    (match restarted with
     | Fulfilled _ => Fulfilled true
     | Rejected reason => Rejected reason
     end)
    (with_calls
       (fun l =>
          ((l ++ [showDialog "Restart Kernel?"
                    "Do you want to restart the current kernel? All variables will be lost."])
           ++ [kernel_restart k])%list)
       w).
Proof.
  intros Hctx Hk Hok. unfold restart. js. rewrite Hctx, Hk, Hok. reflexivity.
Qed.

Lemma restart_declined (w : World) (k : IKernel) (result : IButtonItem)
    (restarted : Settled unit) :
  _context (this w) = object ->
  kernel w = Some k ->
  text result <> "OK" ->
  restart result restarted w =
  Return (Fulfilled false)
    (with_calls
       (fun l =>
          (l ++ [showDialog "Restart Kernel?"
                   "Do you want to restart the current kernel? All variables will be lost."])%list)
       w).
Proof.
  intros Hctx Hk Hno. unfold restart. js. rewrite Hctx, Hk.
  destruct (String.eqb_spec (text result) "OK") as [Hok|_];
    [contradiction|reflexivity].
Qed.

Lemma count_app (kind : Call -> bool) (l1 l2 : list Call) :
  count kind (l1 ++ l2) = (count kind l1 + count kind l2)%nat.
Proof. unfold count. rewrite List.filter_app, length_app. reflexivity. Qed.

(** C5. With the panel's context in place: without a kernel [restart]
    resolves to false, shows no dialog and calls nothing; with a kernel it
    shows exactly one dialog, calls the kernel's [restart] exactly once when
    the dialog's text is ['OK'] and never otherwise, resolves to false on
    any other text, resolves to true only on ['OK'], and does resolve to
    true on ['OK'] once the kernel's restart promise is fulfilled. Nothing
    but the log of calls changes. *)
Theorem restart_asks_then_restarts
    (w : World) (result : IButtonItem) (restarted : Settled unit) :
  _context (this w) = object ->
  (kernel w = None ->
   restart result restarted w = Return (Fulfilled false) w) /\
  (forall k,
      kernel w = Some k ->
      exists r w',
        restart result restarted w = Return r w' /\
        w' = with_calls (fun _ => calls w') w /\
        (exists new_calls,
            calls w' = (calls w ++ new_calls)%list /\
            count is_showDialog new_calls = 1%nat /\
            (text result = "OK" ->
             count is_kernel_restart new_calls = 1%nat /\
             In (kernel_restart k) new_calls) /\
            (text result <> "OK" ->
             count is_kernel_restart new_calls = 0%nat)) /\
        (text result <> "OK" -> r = Fulfilled false) /\
        (r = Fulfilled true -> text result = "OK") /\
        (text result = "OK" -> restarted = Fulfilled tt ->
         r = Fulfilled true)).
Proof.
  intros Hctx. split.
  - intros Hk. exact (restart_no_kernel w result restarted Hctx Hk).
  - intros k Hk.
    destruct (String.eqb_spec (text result) "OK") as [Hok|Hno].
    + do 2 eexists. split;
        [exact (restart_accepted w k result restarted Hctx Hk Hok)|].
      split; [reflexivity|]. split; [|split; [|split]].
      * eexists. split; [simpl; rewrite <- app_assoc; reflexivity|].
        split; [reflexivity|]. split.
        -- intros _. split; [reflexivity|]. right. left. reflexivity.
        -- intros Hno. contradiction.
      * intros Hno. contradiction.
      * intros _. exact Hok.
      * intros _ ->. reflexivity.
    + do 2 eexists. split;
        [exact (restart_declined w k result restarted Hctx Hk Hno)|].
      split; [reflexivity|]. split; [|split; [|split]].
      * eexists. split; [reflexivity|]. split; [reflexivity|]. split.
        -- intros Hok. contradiction.
        -- intros _. reflexivity.
      * intros _. reflexivity.
      * intros Habs. discriminate Habs.
      * intros Hok. contradiction.
Qed.

(** C5 at [kernelless_world], and at [sample_world] with the dialog
    accepted and the restart fulfilled. *)
Lemma restart_asks_then_restarts_witness :
  restart {| text := "OK" |} (Fulfilled tt) kernelless_world =
    Return (Fulfilled false) kernelless_world /\
  exists w',
    restart {| text := "OK" |} (Fulfilled tt) sample_world =
      Return (Fulfilled true) w' /\
    count is_showDialog (calls w') = 1%nat /\
    count is_kernel_restart (calls w') = 1%nat.
Proof.
  split.
  - refine (proj1 (restart_asks_then_restarts kernelless_world
              {| text := "OK" |} (Fulfilled tt) _) _); reflexivity.
  - destruct (proj2 (restart_asks_then_restarts sample_world
                {| text := "OK" |} (Fulfilled tt) eq_refl) python3 eq_refl)
      as (r & w' & Hrun & _ & (new_calls & Hcalls & Hdialog & Hok & _)
          & _ & _ & Htrue).
    exists w'. rewrite (Htrue eq_refl eq_refl) in Hrun.
    split; [exact Hrun|]. rewrite Hcalls. simpl.
    split; [exact Hdialog | exact (proj1 (Hok eq_refl))].
Defined.

(** ** [trustNotebook] *)

Lemma all_trusted_from (cs : list ICellModel) (acc : bool) :
  fold_left
    (fun (acc : bool) (cell : ICellModel) =>
       if negb (truthy (trusted cell)) then false else acc)
    cs acc =
  acc && forallb (fun cell => truthy (trusted cell)) cs.
Proof.
  revert acc. induction cs as [|cell rest IH]; intros acc; simpl.
  - rewrite andb_true_r. reflexivity.
  - rewrite IH. destruct (truthy (trusted cell)); simpl.
    + reflexivity.
    + rewrite andb_false_r. reflexivity.
Qed.

Lemma truthy_true (v : option bool) : truthy v = true <-> v = Some true.
Proof.
  destruct v as [[|]|]; simpl; split; intros H; congruence.
Qed.

(** The scan finds the notebook trusted exactly when every flag is true. *)
Lemma all_trusted_spec (cs : list ICellModel) :
  all_trusted cs = true <->
  Forall (fun cell => trusted cell = Some true) cs.
Proof.
  unfold all_trusted. rewrite all_trusted_from. simpl.
  rewrite forallb_forall, List.Forall_forall.
  split; intros H cell Hin; apply truthy_true, H, Hin.
Qed.

Lemma trust_all (cs : list ICellModel) :
  Forall (fun cell => trusted cell = Some true)
         (map (fun _ : ICellModel => {| trusted := Some true |}) cs).
Proof.
  induction cs as [|cell rest IH]; simpl; constructor; [reflexivity|exact IH].
Qed.

(** C6. If every cell's flag is true, [trustNotebook] shows no dialog
    and changes nothing. Otherwise it shows exactly one dialog; on ['OK']
    every cell's flag is true afterwards and no cell is added or removed; on
    any other text the cells are as before. The callback does the same on
    whatever cells the model holds when the dialog closes. *)
Theorem trustNotebook_all_or_nothing (nb : Notebook) (result : IButtonItem) :
  (Forall (fun cell => trusted cell = Some true) (cells nb) ->
   trustNotebook result nb = Return tt nb) /\
  (~ Forall (fun cell => trusted cell = Some true) (cells nb) ->
   exists nb',
     trustNotebook result nb = Return tt nb' /\
     dialogs nb' =
       (dialogs nb ++ [showDialog "Trust this notebook?" TRUST_MESSAGE])%list /\
     (text result = "OK" ->
      Forall (fun cell => trusted cell = Some true) (cells nb') /\
      length (cells nb') = length (cells nb)) /\
     (text result <> "OK" -> cells nb' = cells nb)) /\
  (forall live : Notebook,
      exists live',
        on_trust_dialog result live = Return tt live' /\
        dialogs live' = dialogs live /\
        (text result = "OK" ->
         Forall (fun cell => trusted cell = Some true) (cells live') /\
         length (cells live') = length (cells live)) /\
        (text result <> "OK" -> live' = live)).
Proof.
  assert (Hcb : forall live : Notebook,
      exists live',
        on_trust_dialog result live = Return tt live' /\
        dialogs live' = dialogs live /\
        (text result = "OK" ->
         Forall (fun cell => trusted cell = Some true) (cells live') /\
         length (cells live') = length (cells live)) /\
        (text result <> "OK" -> live' = live)).
  { intros live. unfold on_trust_dialog.
    destruct (String.eqb_spec (text result) "OK") as [Hok|Hno].
    - eexists. split; [reflexivity|]. simpl. split; [reflexivity|]. split.
      + intros _. split; [apply trust_all | apply length_map].
      + intros Hno. contradiction.
    - exists live. split; [reflexivity|]. split; [reflexivity|]. split.
      + intros Hok. contradiction.
      + intros _. reflexivity. }
  split; [|split; [|exact Hcb]].
  - intros Hall. apply all_trusted_spec in Hall.
    unfold trustNotebook, bind, gets. rewrite Hall. reflexivity.
  - intros Hnot.
    assert (Hscan : all_trusted (cells nb) = false).
    { destruct (all_trusted (cells nb)) eqn:E; [|reflexivity].
      exfalso. apply Hnot, all_trusted_spec, E. }
    unfold trustNotebook, bind, gets, modify. rewrite Hscan.
    set (shown := {| cells := cells nb; dialogs := _ |}).
    destruct (Hcb shown) as (nb' & Hrun & Hd & Hok & Hno).
    exists nb'. split; [exact Hrun|]. split; [rewrite Hd; reflexivity|].
    split.
    + exact Hok.
    + intros H. rewrite (Hno H). reflexivity.
Qed.

(** C6 at [trusted_notebook], and at [sample_notebook] with the dialog
    accepted and declined. *)
Lemma trustNotebook_all_or_nothing_witness :
  trustNotebook {| text := "OK" |} trusted_notebook =
    Return tt trusted_notebook /\
  (exists nb',
      trustNotebook {| text := "OK" |} sample_notebook = Return tt nb' /\
      count is_showDialog (dialogs nb') = 1%nat /\
      Forall (fun cell => trusted cell = Some true) (cells nb')) /\
  (exists nb',
      trustNotebook {| text := "Cancel" |} sample_notebook = Return tt nb' /\
      count is_showDialog (dialogs nb') = 1%nat /\
      cells nb' = cells sample_notebook).
Proof.
  assert (Hnot : ~ Forall (fun cell => trusted cell = Some true)
                     (cells sample_notebook)).
  { intros H. inversion H as [|? ? _ Hrest].
    inversion Hrest as [|? ? Hflag _]. discriminate Hflag. }
  split; [|split].
  - apply (proj1 (trustNotebook_all_or_nothing trusted_notebook
                    {| text := "OK" |})).
    repeat constructor.
  - destruct (proj1 (proj2 (trustNotebook_all_or_nothing sample_notebook
                              {| text := "OK" |})) Hnot)
      as (nb' & Hrun & Hd & Hok & _).
    exists nb'. split; [exact Hrun|]. split; [rewrite Hd; reflexivity|].
    exact (proj1 (Hok eq_refl)).
  - destruct (proj1 (proj2 (trustNotebook_all_or_nothing sample_notebook
                              {| text := "Cancel" |})) Hnot)
      as (nb' & Hrun & Hd & _ & Hno).
    exists nb'. split; [exact Hrun|]. split; [rewrite Hd; reflexivity|].
    apply Hno. discriminate.
Defined.

(** ** [handleKernelChange] *)

Lemma handleKernelChange_fetches (w : World) (k : IKernel) :
  exists w',
    handleKernelChange (Some k) w = Return tt w' /\
    w' = with_pending (fun _ => pending w') (with_calls (fun _ => calls w') w) /\
    calls w' =
      (calls w ++ [kernel_kernelInfo k; kernel_getKernelSpec k])%list /\
    pending w' =
      (pending w ++ [kernelInfo_then; getKernelSpec_then k])%list.
Proof.
  eexists. split; [reflexivity|].
  split; [reflexivity|]. fields.
  rewrite <- !app_assoc. split; reflexivity.
Qed.

Lemma constructor_fetches (w : World) (k : IKernel)
    (rendermime clipboard : Ref) :
  kernel w = Some k ->
  exists w' rest,
    constructor rendermime clipboard w = Return tt w' /\
    kernelChanged_slot w' = true /\
    calls w' =
      (calls w ++
       [kernelChanged_connect; kernel_kernelInfo k; kernel_getKernelSpec k]
       ++ rest)%list /\
    pending w' =
      (pending w ++ [kernelInfo_then; getKernelSpec_then k])%list /\
    metadata w' = metadata w.
Proof.
  intros Hk. unfold constructor, handleKernelChange. js. rewrite Hk. fields.
  destruct (js_index (children w) (activeCellIndex w)) as [c|]; fields;
    do 2 eexists; (split; [reflexivity|]); fields;
    (split; [reflexivity|]); rewrite <- !app_assoc;
    (split; [cbn [app]; reflexivity|]); split; reflexivity.
Qed.

(** C7. When the context has a kernel, the listener of [kernelChanged]
    calls [kernelInfo] and [getKernelSpec] on it and registers a callback
    for each, and so does the constructor, which also connects the
    listener; nothing is written before a reply arrives. In whatever state
    it runs, the first callback stores the reply's [language_info] under
    ['language_info'] and the second stores the kernel's name with the
    reply's display name and language under ['kernelspec']. Each leaves the
    other's key alone and the two commute. Both writes replace what the
    store held under their key: after the callbacks of a kernel have run,
    the store holds that kernel's values, whatever was written before. *)
Theorem kernel_change_writes_metadata
    (w : World) (k : IKernel) (rendermime clipboard : Ref)
    (info : IKernelInfo) (spec : IKernelSpec) :
  kernel w = Some k ->
  (exists w',
      on_kernelChanged w = Return tt w' /\
      calls w' =
        (calls w ++ [kernel_kernelInfo k; kernel_getKernelSpec k])%list /\
      pending w' =
        (pending w ++ [kernelInfo_then; getKernelSpec_then k])%list /\
      metadata w' = metadata w) /\
  (exists w' rest,
      constructor rendermime clipboard w = Return tt w' /\
      kernelChanged_slot w' = true /\
      calls w' =
        (calls w ++
         [kernelChanged_connect; kernel_kernelInfo k; kernel_getKernelSpec k]
         ++ rest)%list /\
      pending w' =
        (pending w ++ [kernelInfo_then; getKernelSpec_then k])%list /\
      metadata w' = metadata w) /\
  (forall u : World,
      run kernelInfo_then info u =
        Return tt
          (with_metadata
             (fun m => <["language_info" := language_info info]> m) u) /\
      run (getKernelSpec_then k) spec u =
        Return tt
          (with_metadata
             (fun m =>
                <["kernelspec" := [("name", name k);
                                   ("display_name", display_name spec);
                                   ("language", language spec)]]> m) u) /\
      metadata (after (run kernelInfo_then info) u) !! "kernelspec" =
        metadata u !! "kernelspec" /\
      metadata (after (run (getKernelSpec_then k) spec) u) !! "language_info" =
        metadata u !! "language_info" /\
      after (run (getKernelSpec_then k) spec)
        (after (run kernelInfo_then info) u) =
      after (run kernelInfo_then info)
        (after (run (getKernelSpec_then k) spec) u) /\
      metadata
        (after (run (getKernelSpec_then k) spec)
           (after (run kernelInfo_then info) u)) !! "language_info" =
        Some (language_info info) /\
      metadata
        (after (run (getKernelSpec_then k) spec)
           (after (run kernelInfo_then info) u)) !! "kernelspec" =
        Some [("name", name k);
              ("display_name", display_name spec);
              ("language", language spec)]).
Proof.
  intros Hk. split; [|split].
  - unfold on_kernelChanged, bind, gets. rewrite Hk.
    destruct (handleKernelChange_fetches w k) as (w' & Hrun & Hw & Hc & Hp).
    exists w'. split; [exact Hrun|]. split; [exact Hc|]. split; [exact Hp|].
    rewrite Hw. reflexivity.
  - exact (constructor_fetches w k rendermime clipboard Hk).
  - intros u. split; [reflexivity|]. split; [reflexivity|].
    unfold after. simpl. unfold on_kernelInfo, on_getKernelSpec. js.
    split; [apply lookup_insert_ne; discriminate|].
    split; [apply lookup_insert_ne; discriminate|].
    split.
    + unfold with_metadata. simpl. f_equal.
      apply insert_insert_ne. discriminate.
    + split.
      * rewrite lookup_insert_ne by discriminate. apply lookup_insert_eq.
      * apply lookup_insert_eq.
Qed.

(** C7 at [sample_world], with sample replies. *)
Lemma kernel_change_writes_metadata_witness :
  (exists w',
      on_kernelChanged sample_world = Return tt w' /\
      calls w' = [kernel_kernelInfo python3; kernel_getKernelSpec python3] /\
      pending w' = [kernelInfo_then; getKernelSpec_then python3]) /\
  (exists w',
      constructor object object sample_world = Return tt w' /\
      pending w' = [kernelInfo_then; getKernelSpec_then python3]).
Proof.
  pose proof (kernel_change_writes_metadata sample_world python3 object object
                {| language_info := [("name", "python")] |}
                {| display_name := "Python 3"; language := "python" |}
                eq_refl) as (Hchange & Hctor & _).
  split.
  - destruct Hchange as (w' & Hrun & Hc & Hp & _).
    exists w'. split; [exact Hrun|]. split; [exact Hc | exact Hp].
  - destruct Hctor as (w' & rest & Hrun & _ & _ & Hp & _).
    exists w'. split; [exact Hrun | exact Hp].
Defined.

(** The store holds the values of the kernel whose replies arrived last:
    a later kernel's replies replace those of an earlier kernel. *)
Lemma later_replies_overwrite (u : World) (k1 k2 : IKernel)
    (info1 info2 : IKernelInfo) (spec1 spec2 : IKernelSpec) :
  let u1 :=
    after (run (getKernelSpec_then k1) spec1)
      (after (run kernelInfo_then info1) u) in
  let u2 :=
    after (run (getKernelSpec_then k2) spec2)
      (after (run kernelInfo_then info2) u1) in
  metadata u2 !! "language_info" = Some (language_info info2) /\
  metadata u2 !! "kernelspec" =
    Some [("name", name k2);
          ("display_name", display_name spec2);
          ("language", language spec2)].
Proof.
  simpl. unfold after. simpl. unfold on_kernelInfo, on_getKernelSpec. js.
  split.
  - rewrite lookup_insert_ne by discriminate. apply lookup_insert_eq.
  - apply lookup_insert_eq.
Qed.

(** The order that counts is the order of the replies, not of the kernel
    changes: no callback checks which kernel is current, so a reply to an
    earlier kernel that arrives last is what the store keeps. *)
Lemma last_reply_is_kept (u : World) (earlier later : IKernelInfo) :
  metadata
    (after (run kernelInfo_then earlier)
       (after (run kernelInfo_then later) u)) !! "language_info" =
  Some (language_info earlier).
Proof.
  unfold after. simpl. unfold on_kernelInfo. js. apply lookup_insert_eq.
Qed.

(** ** [dispose] *)

Lemma dispose_disposed (w : World) :
  isDisposed (this w) = true -> dispose w = Return tt w.
Proof.
  intros Hd. unfold dispose, bind, gets. rewrite Hd. reflexivity.
Qed.

Lemma dispose_live (w : World) :
  isDisposed (this w) = false ->
  _completion (this w) = object ->
  dispose w =
  Return tt
    (with_connections (fun _ => [])
       (with_this
          (fun p =>
             {| _rendermime := null; _context := null; _model := _model p;
                _content := null; _toolbar := null; _clipboard := null;
                _completion := null; _pendingComplete := _pendingComplete p;
                isDisposed := true |})
          (with_calls
             (fun l => ((l ++ [completion_dispose]) ++ [super_dispose])%list)
             w))).
Proof.
  intros Hd Hc. unfold dispose. js. rewrite Hd. fields. rewrite Hc.
  reflexivity.
Qed.

(** C9. Disposing twice leaves the state that disposing once leaves.
    On a panel that is not disposed and holds its completion widget,
    [dispose] sets the context, rendermime, content, toolbar, clipboard and
    completion references to null, keeps the model reference, disposes the
    completion widget once and marks the panel disposed; on a disposed
    panel it returns at once and changes nothing. *)
Theorem dispose_idempotent (w : World) :
  state_of (dispose (state_of (dispose w))) = state_of (dispose w) /\
  (isDisposed (this w) = true -> dispose w = Return tt w) /\
  (isDisposed (this w) = false ->
   _completion (this w) = object ->
   exists w',
     dispose w = Return tt w' /\
     _context (this w') = null /\
     _rendermime (this w') = null /\
     _content (this w') = null /\
     _toolbar (this w') = null /\
     _clipboard (this w') = null /\
     _completion (this w') = null /\
     _model (this w') = _model (this w) /\
     isDisposed (this w') = true /\
     calls w' = (calls w ++ [completion_dispose; super_dispose])%list /\
     dispose w' = Return tt w').
Proof.
  split; [|split].
  - destruct w as [[r c m ct t cl cmp n d] k cm ch a cs sl md pd lg].
    destruct d, cmp; vm_compute; reflexivity.
  - exact (dispose_disposed w).
  - intros Hd Hc. eexists. split; [exact (dispose_live w Hd Hc)|].
    fields. rewrite <- app_assoc. repeat split.
Qed.

(** C9 at [sample_world]. *)
Lemma dispose_idempotent_witness :
  exists w',
    dispose sample_world = Return tt w' /\
    _context (this w') = null /\
    _completion (this w') = null /\
    isDisposed (this w') = true /\
    calls w' = [completion_dispose; super_dispose] /\
    dispose w' = Return tt w'.
Proof.
  destruct (proj2 (proj2 (dispose_idempotent sample_world)) eq_refl eq_refl)
    as (w' & Hrun & Hctx & _ & _ & _ & _ & Hcmp & _ & Hd & Hcalls & Hagain).
  exists w'. repeat split; assumption.
Defined.

(** ** [NotebookWidgetFactory] *)

(** The constructor makes no call to [context.changeKernel]. *)
Lemma constructor_no_changeKernel (w : World) (rendermime clipboard : Ref) :
  exists w' new_calls,
    constructor rendermime clipboard w = Return tt w' /\
    calls w' = (calls w ++ new_calls)%list /\
    count is_changeKernel new_calls = 0%nat.
Proof.
  unfold constructor, handleKernelChange. js.
  destruct (kernel w) as [k|]; simpl;
    destruct (js_index (children w) (activeCellIndex w)) as [c|]; simpl;
    eexists; eexists; (split; [reflexivity|]); simpl;
    rewrite <- ?app_assoc; simpl; (split; [reflexivity|]); reflexivity.
Qed.

(** C10. [beforeClose] resolves to true and changes nothing, whatever
    the model, the factory and the panel. On a factory that is not disposed,
    [createNew] calls [context.changeKernel] exactly once, with the kernel id
    it was given or else with the name [findKernel] returns for the model's
    default kernel name and language; the call is in the log when the
    panel's constructor starts, and the constructor makes no such call. *)
Theorem createNew_changes_kernel_once
    (KernelSpecs : Type) (findKernel : string -> string -> KernelSpecs -> string)
    (f : NotebookWidgetFactory.t) (w : World)
    (model : NotebookWidgetFactory.INotebookModel)
    (kernelspecs : KernelSpecs) (kernel : option IKernelId) :
  NotebookWidgetFactory.beforeClose model (f, w) =
    Return (Fulfilled true) (f, w) /\
  (NotebookWidgetFactory._rendermime f = object ->
   exists w1 w2 ctor_calls,
     calls w1 =
       (calls w ++
        [rendermime_clone;
         context_changeKernel
           (match kernel with
            | Some k => k
            | None =>
                {| id_name :=
                     Some (findKernel
                             (NotebookWidgetFactory.defaultKernelName model)
                             (NotebookWidgetFactory.defaultKernelLanguage model)
                             kernelspecs);
                   id := None |}
            end)])%list /\
     this w1 = new_NotebookPanel /\
     constructor object (NotebookWidgetFactory._clipboard f) w1 =
       Return tt w2 /\
     calls w2 = (calls w1 ++ ctor_calls)%list /\
     count is_changeKernel ctor_calls = 0%nat /\
     NotebookWidgetFactory.createNew KernelSpecs findKernel model kernelspecs
       kernel (f, w) =
       Return tt
         (f, with_calls (fun l => (l ++ [populateDefaults])%list) w2) /\
     count is_changeKernel (calls w2 ++ [populateDefaults]) =
       (count is_changeKernel (calls w) + 1)%nat).
Proof.
  split; [reflexivity|].
  intros Hlive.
  set (kid := match kernel with
              | Some k => k
              | None =>
                  {| id_name :=
                       Some (findKernel
                               (NotebookWidgetFactory.defaultKernelName model)
                               (NotebookWidgetFactory.defaultKernelLanguage model)
                               kernelspecs);
                     id := None |}
              end).
  set (w1 := with_this (fun _ => new_NotebookPanel)
               (with_calls (fun l => (l ++ [context_changeKernel kid])%list)
                  (with_calls (fun l => (l ++ [rendermime_clone])%list) w))).
  destruct (constructor_no_changeKernel w1 object
              (NotebookWidgetFactory._clipboard f))
    as (w2 & ctor_calls & Hctor & Hcalls & Hcount).
  exists w1, w2, ctor_calls.
  split; [subst w1; simpl; rewrite <- app_assoc; reflexivity|].
  split; [reflexivity|].
  split; [exact Hctor|].
  split; [exact Hcalls|].
  split; [exact Hcount|].
  split.
  - unfold NotebookWidgetFactory.createNew, NotebookWidgetFactory.lift,
      bind, gets, assign, call, modify, ret, throw.
    cbn [fst snd]. rewrite Hlive.
    unfold w1 in Hctor.
    destruct kernel as [k|]; cbn [fst snd]; unfold kid in Hctor;
      rewrite Hctor; reflexivity.
  - rewrite Hcalls. subst w1. fields.
    rewrite !count_app, Hcount. unfold count. cbn [List.filter is_changeKernel length]. lia.
Qed.

(** C10 at [sample_factory] and [blank_world], without a kernel id;
    [findKernel] answers with the default name. *)
Lemma createNew_changes_kernel_once_witness :
  exists w',
    NotebookWidgetFactory.createNew unit (fun name _ _ => name)
      {| NotebookWidgetFactory.defaultKernelName := "python3";
         NotebookWidgetFactory.defaultKernelLanguage := "python" |}
      tt None (sample_factory, blank_world) =
      Return tt (sample_factory, w') /\
    count is_changeKernel (calls w') = 1%nat /\
    In (context_changeKernel {| id_name := Some "python3"; id := None |})
       (calls w').
Proof.
  destruct (proj2 (createNew_changes_kernel_once unit (fun name _ _ => name)
                     sample_factory blank_world
                     {| NotebookWidgetFactory.defaultKernelName := "python3";
                        NotebookWidgetFactory.defaultKernelLanguage := "python" |}
                     tt None) eq_refl)
    as (w1 & w2 & ctor_calls & Hc1 & _ & _ & Hc2 & _ & Hrun & Hcount).
  eexists. split; [exact Hrun|]. simpl. split; [exact Hcount|].
  rewrite Hc2, Hc1. simpl. right. left. reflexivity.
Defined.

(** ** What the handlers leave alone *)

Section Frame.
Context {X : Type} (obs : World -> X).

Lemma preserves_ret {A : Type} (a : A) : preserves obs (ret a).
Proof. intros w. reflexivity. Qed.

Lemma preserves_throw {A : Type} (e : Exn) : preserves obs (@throw World A e).
Proof. intros w. reflexivity. Qed.

Lemma preserves_gets {A : Type} (f : World -> A) : preserves obs (gets f).
Proof. intros w. reflexivity. Qed.

Lemma preserves_modify (f : World -> World) :
  (forall w, obs (f w) = obs w) -> preserves obs (modify f).
Proof. intros H w. apply H. Qed.

Lemma preserves_bind {A B : Type} (c : M World A) (k : A -> M World B) :
  preserves obs c -> (forall a, preserves obs (k a)) ->
  preserves obs (bind c k).
Proof.
  intros Hc Hk w. unfold bind. specialize (Hc w).
  destruct (c w) as [a w1|e w1]; simpl in *.
  - rewrite (Hk a w1). exact Hc.
  - exact Hc.
Qed.

Lemma preserves_through (f : NotebookPanel -> Ref) : preserves obs (through f).
Proof. intros w. unfold through. destruct (f (this w)); reflexivity. Qed.

Lemma preserves_property_of {A : Type} (v : option A) :
  preserves obs (@property_of World A v).
Proof. intros w. destruct v; reflexivity. Qed.
End Frame.

(** Splits a computation along its binds and branches, down to the
    primitives, and closes what the primitives preserve by computation. *)
Ltac frame :=
  repeat first
    [ apply preserves_ret
    | apply preserves_throw
    | apply preserves_gets
    | apply preserves_through
    | apply preserves_property_of
    | apply preserves_bind; [|intros]
    | apply preserves_modify; intros; reflexivity
    | match goal with
      | |- preserves _ (match ?x with _ => _ end) => destruct x
      end ].

Ltac unfold_handlers :=
  unfold handle, emit_textChanged, emit_completionRequested, onTextChange,
    onContentChanged, on_kernelChanged, handleKernelChange, dispose, run,
    on_kernelInfo, on_getKernelSpec, on_complete, on_complete_then,
    connect, disconnect, childAt, setMetadata, assign, assign_model, call,
    register.

(** Only [onCompletionRequest] writes the token. *)
Lemma token_kept_by_other_events (e : Event) :
  (forall ed change, e <> completionRequested_emitted ed change) ->
  preserves token (handle e).
Proof.
  intros Hne. destruct e as [ed c|ed c|args| |cb r|].
  - unfold_handlers. frame.
  - exfalso. exact (Hne ed c eq_refl).
  - unfold_handlers. frame.
  - unfold_handlers. frame.
  - destruct cb; unfold_handlers; frame.
  - unfold_handlers. frame.
Qed.

Lemma js_increment_ge (n : Z) : n <= js_increment n.
Proof. unfold js_increment. destruct (n <? MAX_EXACT); lia. Qed.

Lemma token_after_request (change : ICompletionRequest.t) (w : World) :
  token w <= token (state_of (onCompletionRequest change w)).
Proof.
  unfold onCompletionRequest, token. js.
  destruct (_context (this w)); [fields; lia|].
  destruct (kernel w) as [k|]; [|fields; lia]. fields.
  destruct (_completion (this w)); fields; apply js_increment_ge.
Qed.

(** X25. Whatever happens to the panel, in whatever order and with handlers
    that throw, the token never goes down: no event but a completion request
    writes it, and a request never lowers it. *)
Lemma token_never_decreases (es : list Event) :
  forall w, token w <= token (handle_all es w).
Proof.
  induction es as [|e rest IH]; intros w; simpl; [lia|].
  etransitivity; [|apply IH].
  destruct e as [ed c|ed c|args| |cb r|];
    try (rewrite token_kept_by_other_events; [lia | discriminate]).
  unfold handle, emit_completionRequested, bind, gets.
  destruct (decide _); [apply token_after_request | simpl; lia].
Qed.

(** X24. The part of the latest-request-wins rule that the code keeps: an
    event that changes [options] or [cursor] is a text change or the reply that
    carries the current token, has status ['ok'] and finds the model alive.
    What the rule does not keep is [original], which every reply sets. *)
Lemma suggestions_written_only_by (e : Event) (w : World) :
  suggestions (state_of (handle e w)) <> suggestions w ->
  (exists ed change, e = textChanged_emitted ed change) \/
  (exists change value,
      e = promise_fulfilled (complete_then (token w) change) value /\
      status value = "ok" /\
      CompletionModel.isDisposed (completion_model w) = false).
Proof.
  intros Hchanged.
  assert (Hframe : forall c : M World unit,
             preserves suggestions c -> handle e = c -> False).
  { intros c Hc He. apply Hchanged. rewrite He. apply Hc. }
  assert (Hdiscard : forall pc change value,
             e = promise_fulfilled (complete_then pc change) value ->
             discarded w pc value -> False).
  { intros pc change value -> Hd. apply Hchanged. cbn [handle].
    destruct (run_complete_then_registers w pc change value)
      as (w1 & H1 & Hrun).
    rewrite (on_complete_discarded w pc value Hd) in H1.
    injection H1 as <-. rewrite Hrun. reflexivity. }
  destruct e as [ed c|ed c|args| |cb r|].
  - left. eauto.
  - exfalso. eapply Hframe; [|reflexivity].
    unfold_handlers. unfold onCompletionRequest, assign, call, register.
    frame.
  - exfalso. eapply Hframe; [|reflexivity]. unfold_handlers. frame.
  - exfalso. eapply Hframe; [|reflexivity]. unfold_handlers. frame.
  - destruct cb as [|k|pc change|change].
    + exfalso. eapply Hframe; [|reflexivity]. unfold_handlers. frame.
    + exfalso. eapply Hframe; [|reflexivity]. unfold_handlers. frame.
    + destruct (CompletionModel.isDisposed (completion_model w)) eqn:Hdisp;
        [exfalso; eapply Hdiscard; [reflexivity | left; exact Hdisp]|].
      destruct (Z.eq_dec pc (_pendingComplete (this w))) as [Heq|Hne];
        [|exfalso; eapply Hdiscard; [reflexivity | right; left; exact Hne]].
      destruct (String.eqb_spec (status r) "ok") as [Hok|Hno];
        [|exfalso; eapply Hdiscard; [reflexivity | right; right; exact Hno]].
      right. exists change, r. subst pc. repeat split. exact Hok.
    + exfalso. eapply Hframe; [|reflexivity]. unfold_handlers. frame.
  - exfalso. eapply Hframe; [|reflexivity]. unfold_handlers. frame.
Qed.

(** * Further properties *)

(** ** Splitting and joining *)

Lemma split_on_nonempty (sep : N) (s : JsString) : split_on sep s <> [].
Proof.
  destruct s as [|c rest]; simpl; [discriminate|].
  destruct (c =? sep)%N; [discriminate|].
  destruct (split_on sep rest); discriminate.
Qed.

Lemma split_newline_split_on (s : JsString) :
  split_newline s = split_on LF s.
Proof.
  induction s as [|c rest IH]; simpl; [reflexivity|].
  rewrite IH. reflexivity.
Qed.

Lemma split_on_no_sep (sep : N) (s : JsString) :
  Forall (fun l : JsString => ~ In sep l) (split_on sep s).
Proof.
  induction s as [|c rest IH]; simpl.
  - constructor; [intros []|constructor].
  - destruct (N.eqb_spec c sep) as [->|Hne].
    + constructor; [intros []|exact IH].
    + destruct (split_on sep rest) as [|l ls].
      * constructor; [|constructor]. intros [H|[]]. congruence.
      * inversion IH as [|? ? Hl Hls]; subst. constructor; [|exact Hls].
        intros [H|H]; [congruence|auto].
Qed.

(** Joining the segments with the separator gives the string back. *)
Lemma join_split_on (sep : N) (s : JsString) :
  join_with sep (split_on sep s) = s.
Proof.
  induction s as [|c rest IH]; simpl; [reflexivity|].
  pose proof (split_on_nonempty sep rest) as Hne.
  destruct (N.eqb_spec c sep) as [->|Hc].
  - destruct (split_on sep rest) as [|l ls] eqn:E; [contradiction|].
    simpl in *. rewrite IH. reflexivity.
  - destruct (split_on sep rest) as [|l ls] eqn:E; [contradiction|].
    simpl in *. destruct ls; rewrite <- IH; reflexivity.
Qed.

Lemma join_with_app (sep : N) (l1 l2 : list JsString) :
  l1 <> [] -> l2 <> [] ->
  join_with sep (l1 ++ l2) =
  (join_with sep l1 ++ sep :: join_with sep l2)%list.
Proof.
  intros H1 H2. induction l1 as [|a l1 IH]; [contradiction|].
  destruct l1 as [|b l1].
  - simpl. destruct l2; [contradiction|reflexivity].
  - change (join_with sep ((a :: b :: l1) ++ l2))
      with (a ++ sep :: join_with sep ((b :: l1) ++ l2))%list.
    rewrite IH by discriminate.
    change (join_with sep (a :: b :: l1))
      with (a ++ sep :: join_with sep (b :: l1))%list.
    rewrite <- app_assoc. reflexivity.
Qed.

Lemma occurrences_app (c : N) (s1 s2 : JsString) :
  occurrences c (s1 ++ s2) = (occurrences c s1 + occurrences c s2)%nat.
Proof. unfold occurrences. rewrite List.filter_app, length_app. reflexivity. Qed.

Lemma occurrences_absent (c : N) (s : JsString) :
  ~ In c s -> occurrences c s = 0%nat.
Proof.
  unfold occurrences. induction s as [|x s IH]; intros Hn; simpl; [reflexivity|].
  destruct (N.eqb_spec x c) as [->|Hne].
  - exfalso. apply Hn. left. reflexivity.
  - apply IH. intros H. apply Hn. right. exact H.
Qed.

(** Joined segments without the separator hold one separator per joint. *)
Lemma occurrences_join (sep : N) (ls : list JsString) :
  Forall (fun l : JsString => ~ In sep l) ls ->
  occurrences sep (join_with sep ls) = Nat.pred (length ls).
Proof.
  induction ls as [|l rest IH]; intros Hall; [reflexivity|].
  inversion Hall as [|? ? Hl Hrest]; subst.
  destruct rest as [|l2 rest].
  - simpl. apply occurrences_absent, Hl.
  - change (join_with sep (l :: l2 :: rest))
      with (l ++ [sep] ++ join_with sep (l2 :: rest))%list.
    rewrite !occurrences_app, (occurrences_absent sep l Hl), (IH Hrest).
    unfold occurrences at 1. simpl. rewrite N.eqb_refl. reflexivity.
Qed.

(** Where a segment lies in the string it was split from. *)
Lemma segment_position (sep : N) (s : JsString) (i : nat) (seg : JsString) :
  split_on sep s !! i = Some seg ->
  exists before after,
    s = (before ++ seg ++ after)%list /\
    ~ In sep seg /\
    occurrences sep before = i /\
    (before = [] \/ exists b, before = (b ++ [sep])%list) /\
    (after = [] \/ exists a, after = sep :: a) /\
    (S i = length (split_on sep s) -> after = []).
Proof.
  intros Hi.
  pose proof (split_on_no_sep sep s) as Hall.
  pose proof (join_split_on sep s) as Hjoin.
  pose proof (take_drop_middle _ _ _ Hi) as Hmid.
  pose proof (lookup_lt_Some _ _ _ Hi) as Hlt.
  remember (split_on sep s) as L eqn:EL.
  remember (take i L) as A eqn:EA. remember (drop (S i) L) as D eqn:ED.
  assert (HA : length A = i) by (subst A; rewrite length_take; lia).
  assert (HD : S i = length L -> D = [])
    by (intros Hlen; subst D; apply drop_ge; lia).
  assert (Hs : s = join_with sep (A ++ seg :: D))
    by (rewrite Hmid; symmetry; exact Hjoin).
  rewrite <- Hmid in Hall. apply Forall_app in Hall as [HallA HallD].
  assert (Hseg : ~ In sep seg) by (inversion HallD; assumption).
  assert (Htail : exists after,
             join_with sep (seg :: D) = (seg ++ after)%list /\
             (after = [] \/ exists a, after = sep :: a) /\
             (D = [] -> after = [])).
  { destruct D as [|d D'].
    - exists []. simpl. rewrite app_nil_r. auto.
    - exists (sep :: join_with sep (d :: D')). split; [reflexivity|].
      split; [right; eauto | discriminate]. }
  destruct Htail as (after & Hafter & Hshape & Hlast).
  clear EL EA ED Hmid Hi Hjoin.
  destruct A as [|a A'].
  - exists [], after. simpl in HA. subst i. simpl app in *.
    split; [rewrite Hs; exact Hafter|]. split; [exact Hseg|].
    split; [reflexivity|]. split; [left; reflexivity|].
    split; [exact Hshape|]. intros Hlen. apply Hlast, HD, Hlen.
  - exists (join_with sep (a :: A') ++ [sep])%list, after.
    split.
    + rewrite Hs, join_with_app by discriminate. rewrite Hafter.
      rewrite <- app_assoc. reflexivity.
    + split; [exact Hseg|]. split.
      * rewrite occurrences_app, (occurrences_join sep _ HallA).
        unfold occurrences at 1. simpl. rewrite N.eqb_refl. simpl in *. lia.
      * split; [right; eauto|]. split; [exact Hshape|].
        intros Hlen. apply Hlast, HD, Hlen.
Qed.

(** ** The title *)

(** X1. The title text set at construction and on every change of the
    path is always defined: it is the part of the path after its last
    slash, the whole path when it has none, and the empty string when the
    path ends with a slash. The class name is not touched. *)
Theorem title_is_last_path_segment (path : JsString) (t : Title) :
  exists dir name,
    title_text (on_pathChanged path t) = Some name /\
    path = (dir ++ name)%list /\
    ~ In SLASH name /\
    (dir = [] \/ exists d, dir = (d ++ [SLASH])%list) /\
    className (on_pathChanged path t) = className t.
Proof.
  unfold on_pathChanged, last_segment. simpl.
  pose proof (split_on_nonempty SLASH path) as Hne.
  rewrite last_lookup.
  destruct (split_on SLASH path !! Nat.pred (length (split_on SLASH path)))
    as [name|] eqn:Hlast.
  - destruct (segment_position SLASH path _ name Hlast)
      as (dir & after & Hpath & Hname & _ & Hdir & _ & Hend).
    assert (Hafter : after = []).
    { apply Hend. destruct (split_on SLASH path); [contradiction|].
      simpl. reflexivity. }
    subst after. rewrite app_nil_r in Hpath.
    exists dir, name. repeat split; assumption.
  - exfalso. apply lookup_ge_None in Hlast.
    destruct (split_on SLASH path); [contradiction|]. simpl in Hlast. lia.
Qed.

(** ** The dirty class *)

Lemma starts_with_spec (pat s : JsString) :
  starts_with pat s = true <-> exists post, s = (pat ++ post)%list.
Proof.
  revert s. induction pat as [|p pat IH]; intros s; simpl.
  - split; [intros _; exists s; reflexivity | reflexivity].
  - destruct s as [|c s].
    + split; [discriminate | intros [post H]; discriminate H].
    + rewrite andb_true_iff, IH, N.eqb_eq. split.
      * intros [-> [post ->]]. exists post. reflexivity.
      * intros [post H]. injection H as -> ->. eauto.
Qed.

Lemma starts_with_occurs (pat s pre : JsString) :
  starts_with pat s = true -> occurs pat (pre ++ s).
Proof.
  intros H. apply starts_with_spec in H as [post ->].
  exists pre, post. reflexivity.
Qed.

(** A pattern that begins before a unit it does not contain ends before
    it. *)
Lemma prefix_through_gap (pat r t post : JsString) (c : N) :
  (r ++ c :: t)%list = (pat ++ post)%list -> ~ In c pat ->
  exists r', r = (pat ++ r')%list.
Proof.
  revert r. induction pat as [|p pat IH]; intros r Heq Hc.
  - exists r. reflexivity.
  - destruct r as [|a r]; simpl in Heq.
    + injection Heq as -> _. exfalso. apply Hc. left. reflexivity.
    + injection Heq as -> Heq.
      destruct (IH r Heq) as [r' ->]; [intros H; apply Hc; right; exact H|].
      exists r'. reflexivity.
Qed.

Lemma replace_first_prefix (pat repl post : JsString) :
  replace_first pat repl (pat ++ post) = (repl ++ post)%list.
Proof.
  assert (Hs : starts_with pat (pat ++ post) = true)
    by (apply starts_with_spec; eauto).
  destruct (pat ++ post)%list as [|c rest] eqn:E.
  - destruct pat; [|discriminate E]. simpl in E. subst post. simpl.
    rewrite app_nil_r. reflexivity.
  - simpl. rewrite Hs, <- E, drop_app_length. reflexivity.
Qed.

Lemma occurs_cons (pat s : JsString) (c : N) :
  occurs pat s -> occurs pat (c :: s).
Proof. intros (pre & post & ->). exists (c :: pre), post. reflexivity. Qed.

(** The first occurrence is the one replaced: a pattern that does not occur
    in [s] and follows it after a unit foreign to the pattern. *)
Lemma replace_first_after_gap (pat repl s post : JsString) (c : N) :
  ~ In c pat -> ~ occurs pat s ->
  replace_first pat repl (s ++ c :: pat ++ post) =
  (s ++ c :: repl ++ post)%list.
Proof.
  intros Hc. induction s as [|a s IH]; intros Hs.
  - simpl app.
    assert (Hno : starts_with pat (c :: pat ++ post) = false).
    { destruct (starts_with pat (c :: pat ++ post)) eqn:E; [|reflexivity].
      exfalso. apply starts_with_spec in E as [q E].
      destruct (prefix_through_gap pat [] (pat ++ post) q c E Hc) as [r' Hr].
      destruct pat; [|discriminate Hr].
      apply Hs. exists [], []. reflexivity. }
    simpl. rewrite Hno, replace_first_prefix. reflexivity.
  - assert (Hno : starts_with pat ((a :: s) ++ c :: pat ++ post) = false).
    { destruct (starts_with pat ((a :: s) ++ c :: pat ++ post)) eqn:E;
        [|reflexivity].
      exfalso. apply starts_with_spec in E as [q E].
      destruct (prefix_through_gap pat (a :: s) (pat ++ post) q c E Hc)
        as [r' Hr].
      apply Hs. exists [], r'. exact Hr. }
    simpl in *. rewrite Hno, IH; [reflexivity|].
    intros H. apply Hs, occurs_cons, H.
Qed.

Lemma replace_first_absent (pat repl s : JsString) :
  ~ occurs pat s -> replace_first pat repl s = s.
Proof.
  induction s as [|c s IH]; intros Hs; simpl.
  - destruct pat; [|reflexivity].
    exfalso. apply Hs. exists [], []. reflexivity.
  - destruct (starts_with pat (c :: s)) eqn:E.
    + exfalso. apply Hs. exact (starts_with_occurs pat (c :: s) [] E).
    + rewrite IH; [reflexivity|]. intros H. apply Hs, occurs_cons, H.
Qed.

(** A pattern that occurs in [s] followed by a unit foreign to it occurs
    in [s]. *)
Lemma occurs_before_gap (pat s : JsString) (c : N) :
  pat <> [] -> ~ In c pat -> occurs pat (s ++ [c]) -> occurs pat s.
Proof.
  intros Hne Hc (pre & post & Heq).
  destruct post as [|x post _] using rev_ind.
  - rewrite app_nil_r in Heq.
    destruct pat as [|y pat _] using rev_ind; [contradiction|].
    rewrite app_assoc in Heq. apply app_inj_tail in Heq as [_ ->].
    exfalso. apply Hc, in_or_app. right. left. reflexivity.
  - rewrite !app_assoc in Heq. apply app_inj_tail in Heq as [-> _].
    exists pre, post. rewrite app_assoc. reflexivity.
Qed.

Lemma space_not_in_DIRTY_CLASS : ~ In 32%N DIRTY_CLASS.
Proof.
  intros H. vm_compute in H.
  repeat (destruct H as [H|H]; [discriminate H|]). exact H.
Qed.

Lemma DIRTY_CLASS_nonempty : DIRTY_CLASS <> [].
Proof. discriminate. Qed.

Lemma on_dirty (t : Title) :
  on_model_stateChanged {| changed_name := "dirty"; changed_newValue := true |}
    t =
  {| title_text := title_text t;
     className := (className t ++ 32%N :: DIRTY_CLASS)%list |}.
Proof. reflexivity. Qed.

Lemma on_clean (t : Title) :
  on_model_stateChanged
    {| changed_name := "dirty"; changed_newValue := false |} t =
  {| title_text := title_text t;
     className := replace_first DIRTY_CLASS [] (className t) |}.
Proof. reflexivity. Qed.

(** X2. On a title whose class name does not hold the dirty class, a
    dirty event followed by a clean event does not restore the class name:
    the class is removed and the space added before it stays. After [n]
    such cycles the class name is the original one followed by [n] spaces,
    and the title text is untouched. *)
Theorem dirty_clean_cycles_leave_spaces (n : nat) (t : Title) :
  ~ occurs DIRTY_CLASS (className t) ->
  className (dirty_events (concat (replicate n [true; false])) t) =
    (className t ++ replicate n 32%N)%list /\
  title_text (dirty_events (concat (replicate n [true; false])) t) =
    title_text t.
Proof.
  revert t. induction n as [|n IH]; intros t Hno.
  - simpl. rewrite app_nil_r. split; reflexivity.
  - change (concat (replicate (S n) [true; false]))
      with (true :: false :: concat (replicate n [true; false])).
    cbn [dirty_events].
    set (t1 := on_model_stateChanged _ (on_model_stateChanged _ t)).
    assert (Hc1 : className t1 = (className t ++ [32%N])%list).
    { subst t1. rewrite on_dirty, on_clean. cbn [className].
      rewrite <- (app_nil_r DIRTY_CLASS) at 2.
      rewrite (replace_first_after_gap DIRTY_CLASS [] (className t) [] 32%N
                 space_not_in_DIRTY_CLASS Hno).
      reflexivity. }
    assert (Ht1 : title_text t1 = title_text t)
      by (subst t1; rewrite on_dirty, on_clean; reflexivity).
    destruct (IH t1) as [Hcn Htt].
    { rewrite Hc1. intros H. apply Hno.
      exact (occurs_before_gap DIRTY_CLASS (className t) 32%N
               DIRTY_CLASS_nonempty space_not_in_DIRTY_CLASS H). }
    split; [|rewrite Htt; exact Ht1].
    rewrite Hcn, Hc1, <- app_assoc. reflexivity.
Qed.

Lemma no_class_in_sample_title : ~ occurs DIRTY_CLASS (className sample_title).
Proof.
  intros (pre & post & H).
  assert (Hlen : length (className sample_title) =
                 length (pre ++ DIRTY_CLASS ++ post)%list) by (rewrite H; reflexivity).
  rewrite !length_app in Hlen.
  change (length (className sample_title)) with 7%nat in Hlen.
  change (length DIRTY_CLASS) with 12%nat in Hlen. lia.
Qed.

(** X2 at [sample_title], for two cycles. *)
Lemma dirty_clean_cycles_leave_spaces_witness :
  className (dirty_events [true; false; true; false] sample_title) =
    units "p-Title  " /\
  title_text (dirty_events [true; false; true; false] sample_title) = None.
Proof.
  exact (dirty_clean_cycles_leave_spaces 2 sample_title
           no_class_in_sample_title).
Defined.

(** X3. The clean event removes one occurrence of the class only: when
    the model turns dirty twice before it turns clean, the title keeps the
    dirty class, after two spaces. *)
Theorem dirty_twice_clean_once_stays_dirty (t : Title) :
  ~ occurs DIRTY_CLASS (className t) ->
  className (dirty_events [true; true; false] t) =
    (className t ++ units "  " ++ DIRTY_CLASS)%list /\
  occurs DIRTY_CLASS (className (dirty_events [true; true; false] t)).
Proof.
  intros Hno.
  assert (H : className (dirty_events [true; true; false] t) =
              (className t ++ units "  " ++ DIRTY_CLASS)%list).
  { cbn [dirty_events]. rewrite !on_dirty, on_clean. cbn [className].
    rewrite <- app_assoc.
    change ((32%N :: DIRTY_CLASS) ++ 32%N :: DIRTY_CLASS)%list
      with (32%N :: DIRTY_CLASS ++ 32%N :: DIRTY_CLASS)%list.
    rewrite (replace_first_after_gap DIRTY_CLASS [] (className t)
               (32%N :: DIRTY_CLASS) 32%N space_not_in_DIRTY_CLASS Hno).
    reflexivity. }
  split; [exact H|]. rewrite H.
  exists (className t ++ units "  ")%list, []. rewrite <- !app_assoc.
  reflexivity.
Qed.

(** X3 at [sample_title]. *)
Lemma dirty_twice_clean_once_stays_dirty_witness :
  className (dirty_events [true; true; false] sample_title) =
    units "p-Title  jp-mod-dirty".
Proof.
  exact (proj1 (dirty_twice_clean_once_stays_dirty sample_title
                  no_class_in_sample_title)).
Defined.

(** ** More on [onTextChange] *)

Lemma onTextChange_disposed (w : World) (change : ITextChange.t) :
  _completion (this w) = null -> onTextChange change w = Throw TypeError w.
Proof. intros Hc. unfold onTextChange. js. rewrite Hc. reflexivity. Qed.

Lemma onTextChange_missing_line (w : World) (change : ITextChange.t) :
  js_index (split_newline (ITextChange.newValue change))
           (ITextChange.line change) = None ->
  onTextChange change w = Throw TypeError w.
Proof.
  intros Hl. unfold onTextChange. js. rewrite Hl.
  destruct (_completion (this w)); reflexivity.
Qed.

(** The three things [onTextChange] can leave behind. *)
Lemma onTextChange_outcomes (w : World) (change : ITextChange.t) :
  (onTextChange change w = Throw TypeError w) \/
  (onTextChange change w = Return tt w) \/
  (CompletionModel.original (completion_model w) <> None /\
   onTextChange change w =
   Return tt
     (with_completion_model (CompletionModel.set_current (Some change)) w)) \/
  (onTextChange change w =
   Return tt (with_completion_model reset_completion w)).
Proof.
  destruct (_completion (this w)) eqn:Hc;
    [left; exact (onTextChange_disposed w change Hc)|].
  destruct (js_index (split_newline (ITextChange.newValue change))
                     (ITextChange.line change)) as [l|] eqn:Hl;
    [|left; exact (onTextChange_missing_line w change Hl)].
  destruct (js_index l (ITextChange.ch change - 1)) as [c|] eqn:Hch.
  - destruct (is_whitespace c) eqn:Hws.
    + right; right; right. apply (onTextChange_reset w change l Hc Hl).
      right. exists c. split; assumption.
    + pose proof (onTextChange_refresh w change l c Hc Hl Hch Hws) as E.
      destruct (CompletionModel.original (completion_model w)) eqn:Ho.
      * right; right; left. split; [discriminate | exact E].
      * right; left. exact E.
  - right; right; right. apply (onTextChange_reset w change l Hc Hl).
    left. exact Hch.
Qed.

(** X4. Handling the same text change twice leaves the state that
    handling it once leaves, whatever the state and the change. *)
Theorem onTextChange_idempotent (w : World) (change : ITextChange.t) :
  state_of (onTextChange change (state_of (onTextChange change w))) =
  state_of (onTextChange change w).
Proof.
  destruct (_completion (this w)) eqn:Hc;
    [rewrite (onTextChange_disposed w change Hc); cbn [state_of];
     rewrite (onTextChange_disposed w change Hc); reflexivity|].
  destruct (js_index (split_newline (ITextChange.newValue change))
                     (ITextChange.line change)) as [l|] eqn:Hl;
    [|rewrite (onTextChange_missing_line w change Hl); cbn [state_of];
      rewrite (onTextChange_missing_line w change Hl); reflexivity].
  destruct (js_index l (ITextChange.ch change - 1)) as [c|] eqn:Hch;
    [destruct (is_whitespace c) eqn:Hws|].
  - assert (Hr : js_index l (ITextChange.ch change - 1) = None \/
                 exists c, js_index l (ITextChange.ch change - 1) = Some c /\
                           is_whitespace c = true) by eauto.
    rewrite (onTextChange_reset w change l Hc Hl Hr). cbn [state_of].
    rewrite (onTextChange_reset (with_completion_model reset_completion w)
               change l Hc Hl Hr). reflexivity.
  - rewrite (onTextChange_refresh w change l c Hc Hl Hch Hws).
    destruct (CompletionModel.original (completion_model w)) eqn:Ho;
      cbn [state_of].
    + rewrite (onTextChange_refresh
                 (with_completion_model
                    (CompletionModel.set_current (Some change)) w)
                 change l c Hc Hl Hch Hws).
      cbn [completion_model with_completion_model CompletionModel.original
           CompletionModel.set_current].
      rewrite Ho. reflexivity.
    + rewrite (onTextChange_refresh w change l c Hc Hl Hch Hws), Ho.
      reflexivity.
  - assert (Hr : js_index l (ITextChange.ch change - 1) = None \/
                 exists c, js_index l (ITextChange.ch change - 1) = Some c /\
                           is_whitespace c = true) by eauto.
    rewrite (onTextChange_reset w change l Hc Hl Hr). cbn [state_of].
    rewrite (onTextChange_reset (with_completion_model reset_completion w)
               change l Hc Hl Hr). reflexivity.
Qed.

Lemma js_index_outside {A : Type} (a : list A) (i : Z) :
  i < 0 \/ Z.of_nat (length a) <= i -> js_index a i = None.
Proof.
  intros H. unfold js_index. destruct (Z.ltb_spec i 0); [reflexivity|].
  apply lookup_ge_None. lia.
Qed.

(** X5. On a panel that holds its completion widget, a text change
    whose line exists and whose column is 0 or less, or beyond the length of
    the line, resets the session: [options], [original] and [cursor] become
    absent whatever they were, and nothing else changes. *)
Theorem onTextChange_column_outside_line_resets
    (w : World) (change : ITextChange.t) (l : JsString) :
  _completion (this w) = object ->
  js_index (split_newline (ITextChange.newValue change))
           (ITextChange.line change) = Some l ->
  ITextChange.ch change <= 0 \/
    Z.of_nat (length l) < ITextChange.ch change ->
  onTextChange change w = Return tt (with_completion_model reset_completion w) /\
  CompletionModel.options
    (completion_model (with_completion_model reset_completion w)) = None /\
  CompletionModel.original
    (completion_model (with_completion_model reset_completion w)) = None /\
  CompletionModel.cursor
    (completion_model (with_completion_model reset_completion w)) = None.
Proof.
  intros Hc Hl Hch. split; [|repeat split].
  apply (onTextChange_reset w change l Hc Hl). left.
  apply js_index_outside. lia.
Qed.

(** X5 at [session_world], with the cursor at the start of the line. *)
Lemma onTextChange_column_outside_line_resets_witness :
  onTextChange typed_at_line_start session_world =
    Return tt (with_completion_model reset_completion session_world) /\
  CompletionModel.options
    (completion_model (with_completion_model reset_completion session_world))
    = None /\
  CompletionModel.original
    (completion_model (with_completion_model reset_completion session_world))
    = None /\
  CompletionModel.cursor
    (completion_model (with_completion_model reset_completion session_world))
    = None.
Proof.
  apply (onTextChange_column_outside_line_resets session_world
           typed_at_line_start (units "prin")).
  - reflexivity.
  - reflexivity.
  - left. simpl. lia.
Defined.

(** X6. A line index that addresses no line of the buffer is treated
    differently by the two handlers: [onTextChange] throws a [TypeError] and
    changes nothing, in every state; [onCompletionRequest], on a panel with
    a kernel, does not throw: it calls [kernel.complete] with an undefined
    code, advances the token and registers its callback. *)
Theorem missing_line_throws_or_sends_undefined
    (w : World) (typed : ITextChange.t) (request : ICompletionRequest.t)
    (k : IKernel) :
  js_index (split_newline (ITextChange.newValue typed))
           (ITextChange.line typed) = None ->
  js_index (split_newline (ICompletionRequest.currentValue request))
           (ICompletionRequest.line request) = None ->
  _context (this w) = object ->
  _completion (this w) = object ->
  kernel w = Some k ->
  onTextChange typed w = Throw TypeError w /\
  exists w',
    onCompletionRequest request w = Return tt w' /\
    calls w' =
      (calls w ++
       [kernel_complete k None (ICompletionRequest.ch request)])%list /\
    token w' = js_increment (token w) /\
    pending w' = (pending w ++ [complete_then (token w') request])%list.
Proof.
  intros Ht Hr Hctx Hcmp Hk. split.
  - exact (onTextChange_missing_line w typed Ht).
  - eexists. split; [exact (onCompletionRequest_issues w request k Hctx Hcmp Hk)|].
    unfold token. fields. rewrite Hr. repeat split.
Qed.

(** X6 at [sample_world], with line 7 of a buffer of one line. *)
Lemma missing_line_throws_or_sends_undefined_witness :
  onTextChange typed_beyond sample_world = Throw TypeError sample_world /\
  exists w',
    onCompletionRequest request_beyond sample_world = Return tt w' /\
    calls w' = [kernel_complete python3 None 0] /\
    token w' = 1 /\
    pending w' = [complete_then 1 request_beyond].
Proof.
  destruct (missing_line_throws_or_sends_undefined sample_world typed_beyond
              request_beyond python3 eq_refl eq_refl eq_refl eq_refl eq_refl)
    as (Hthrow & w' & Hrun & Hcalls & Htoken & Hpending).
  split; [exact Hthrow|]. exists w'.
  split; [exact Hrun|]. split; [exact Hcalls|].
  split; [exact Htoken|]. rewrite Hpending, Htoken. reflexivity.
Defined.

(** ** More on [onCompletionRequest] and its callbacks *)

(** X7. When [change.line] addresses a line of the buffer, the code
    sent to the kernel is that line and nothing around it: the buffer is the
    text before, the code and the text after, where the text before holds
    exactly [change.line] line feeds and is empty or ends with one, the text
    after is empty or begins with one, and the code holds none. *)
Theorem onCompletionRequest_sends_the_addressed_line
    (w : World) (change : ICompletionRequest.t) (k : IKernel)
    (code : JsString) :
  _context (this w) = object ->
  _completion (this w) = object ->
  kernel w = Some k ->
  js_index (split_newline (ICompletionRequest.currentValue change))
           (ICompletionRequest.line change) = Some code ->
  exists w' before after,
    onCompletionRequest change w = Return tt w' /\
    calls w' =
      (calls w ++
       [kernel_complete k (Some code) (ICompletionRequest.ch change)])%list /\
    ICompletionRequest.currentValue change = (before ++ code ++ after)%list /\
    Z.of_nat (occurrences LF before) = ICompletionRequest.line change /\
    (before = [] \/ exists b, before = (b ++ [LF])%list) /\
    (after = [] \/ exists a, after = LF :: a) /\
    ~ In LF code.
Proof.
  intros Hctx Hcmp Hk Hcode.
  assert (Hi : 0 <= ICompletionRequest.line change /\
               split_on LF (ICompletionRequest.currentValue change)
                 !! Z.to_nat (ICompletionRequest.line change) = Some code).
  { unfold js_index in Hcode. rewrite split_newline_split_on in Hcode.
    destruct (Z.ltb_spec (ICompletionRequest.line change) 0);
      [discriminate Hcode|]. split; [lia | exact Hcode]. }
  destruct Hi as [Hpos Hi].
  destruct (segment_position LF _ _ code Hi)
    as (before & after & Hbuf & Hno & Hocc & Hb & Ha & _).
  eexists. exists before, after.
  split; [exact (onCompletionRequest_issues w change k Hctx Hcmp Hk)|].
  fields. rewrite Hcode.
  split; [reflexivity|]. split; [exact Hbuf|].
  split; [rewrite Hocc; lia|]. repeat split; assumption.
Qed.

(** X7 at [sample_world]: the second line of a buffer of two. *)
Lemma onCompletionRequest_sends_the_addressed_line_witness :
  exists w' before after,
    onCompletionRequest request_pri sample_world = Return tt w' /\
    calls w' = [kernel_complete python3 (Some (units "pri")) 3] /\
    ICompletionRequest.currentValue request_pri =
      (before ++ units "pri" ++ after)%list /\
    Z.of_nat (occurrences LF before) = 1.
Proof.
  destruct (onCompletionRequest_sends_the_addressed_line sample_world
              request_pri python3 (units "pri")
              eq_refl eq_refl eq_refl eq_refl)
    as (w' & before & after & Hrun & Hcalls & Hbuf & Hocc & _).
  exists w', before, after. repeat split; assumption.
Defined.

(** The two things the first callback can leave behind. *)
Lemma on_complete_outcomes (w : World) (pendingComplete : Z)
    (value : ICompleteReply) :
  on_complete pendingComplete value w = Return tt w \/
  on_complete pendingComplete value w =
  Return tt
    (with_completion_model
       (fun m =>
          CompletionModel.set_cursor
            (Some (cursor_start value, cursor_end value))
            (CompletionModel.set_options (Some (matches value)) m))
       w).
Proof.
  destruct (CompletionModel.isDisposed (completion_model w)) eqn:Hd;
    [left; apply on_complete_discarded; left; exact Hd|].
  destruct (Z.eq_dec pendingComplete (_pendingComplete (this w)))
    as [Heq|Hne];
    [|left; apply on_complete_discarded; right; left; exact Hne].
  destruct (String.eqb_spec (status value) "ok") as [Hok|Hno];
    [|left; apply on_complete_discarded; right; right; exact Hno].
  right. exact (on_complete_accepted w pendingComplete value Hd Heq Hok).
Qed.

(** X9. No promise callback throws, in any state, the state left by
    [dispose] included; and none writes a field of the panel or makes a call
    to the kernel, the dialog, a signal or the context. *)
Theorem callbacks_never_throw (cb : Callback) (reply : ReplyOf cb) (w : World) :
  exists w',
    run cb reply w = Return tt w' /\
    this w' = this w /\
    calls w' = calls w.
Proof.
  destruct cb as [|k|pc change|change]; simpl in reply.
  - eexists. split; [reflexivity|]. split; reflexivity.
  - eexists. split; [reflexivity|]. split; reflexivity.
  - destruct (run_complete_then_registers w pc change reply)
      as (w1 & H1 & Hrun).
    eexists. split; [exact Hrun|].
    destruct (on_complete_outcomes w pc reply) as [E|E];
      rewrite E in H1; injection H1 as <-; split; reflexivity.
  - eexists. split; [reflexivity|]. split; reflexivity.
Qed.

(** ** Invariants of the completion model *)

Lemma model_kept_by_other_events (e : Event) :
  touches_model e = false -> preserves completion_model (handle e).
Proof.
  intros Hno. destruct e as [ed c|ed c|args| |cb r|]; try discriminate Hno.
  - unfold_handlers. unfold onCompletionRequest, assign, call, register.
    frame.
  - unfold_handlers. frame.
  - unfold_handlers. frame.
  - destruct cb; try discriminate Hno; unfold_handlers; frame.
  - unfold_handlers. frame.
Qed.

Lemma emit_textChanged_outcomes (ed : nat) (change : ITextChange.t)
    (w : World) :
  state_of (emit_textChanged ed change w) = w \/
  (CompletionModel.original (completion_model w) <> None /\
   state_of (emit_textChanged ed change w) =
   with_completion_model (CompletionModel.set_current (Some change)) w) \/
  state_of (emit_textChanged ed change w) =
  with_completion_model reset_completion w.
Proof.
  unfold emit_textChanged, bind, gets.
  destruct (decide _); [|left; reflexivity].
  destruct (onTextChange_outcomes w change) as [E|[E|[[Ho E]|E]]];
    rewrite E; cbn [state_of]; auto.
Qed.

Lemma options_need_original_step (e : Event) (w : World) :
  options_need_original w ->
  options_need_original (state_of (handle_settled e w)).
Proof.
  intros Hinv.
  destruct (touches_model e) eqn:Ht.
  - destruct e as [ed c|ed c|args| |cb r|]; try discriminate Ht.
    + cbn [handle_settled handle].
      destruct (emit_textChanged_outcomes ed c w) as [E|[[_ E]|E]];
        rewrite E; [exact Hinv | exact Hinv |].
      intros Habs. exfalso. apply Habs. reflexivity.
    + destruct cb as [|k|pc change|change]; try discriminate Ht.
      * cbn [handle_settled]. unfold completion_response, bind.
        destruct (on_complete_outcomes w pc r) as [E|E]; rewrite E;
          intros _; discriminate.
      * intros _. discriminate.
  - assert (Hsame : handle_settled e = handle e).
    { destruct e as [ed c|ed c|args| |cb r|]; try reflexivity.
      destruct cb; try reflexivity; discriminate Ht. }
    unfold options_need_original in *.
    rewrite Hsame, (model_kept_by_other_events e Ht w). exact Hinv.
Qed.

(** X11. When the two callbacks of each completion reply run together,
    options are offered only while a session is open: if [original] is set
    whenever [options] is, the same holds after any sequence of events. *)
Theorem options_only_with_original (es : list Event) (w : World) :
  options_need_original w -> options_need_original (handle_all_settled es w).
Proof.
  revert w. induction es as [|e rest IH]; intros w Hinv; [exact Hinv|].
  simpl. apply IH, options_need_original_step, Hinv.
Qed.

(** X11 at [sample_world], through a request, its reply and a letter. *)
Lemma options_only_with_original_witness :
  options_need_original
    (handle_all_settled
       [completionRequested_emitted 10 request_pri;
        promise_fulfilled (complete_then 1 request_pri) reply_print;
        textChanged_emitted 10 typed_prin]
       sample_world).
Proof.
  apply options_only_with_original. intros H. exfalso. apply H. reflexivity.
Defined.

(** ** After [dispose] *)

(** X12. Once a live panel is disposed, its handlers do not degrade
    to no-ops: [restart] and [onCompletionRequest] throw a [TypeError] at
    [this.context.kernel], [onTextChange] at [this._completion.model] and
    [onContentChanged] at [this._content.childAt], each leaving the state
    as [dispose] left it. *)
Theorem handlers_throw_after_dispose
    (w : World) (result : IButtonItem) (restarted : Settled unit)
    (request : ICompletionRequest.t) (typed : ITextChange.t)
    (old new : Z) :
  isDisposed (this w) = false ->
  _completion (this w) = object ->
  exists w',
    dispose w = Return tt w' /\
    restart result restarted w' = Throw TypeError w' /\
    onCompletionRequest request w' = Throw TypeError w' /\
    onTextChange typed w' = Throw TypeError w' /\
    onContentChanged
      {| args_name := "activeCellIndex"; oldValue := old; newValue := new |}
      w' = Throw TypeError w'.
Proof.
  intros Hd Hc. eexists. split; [exact (dispose_live w Hd Hc)|].
  split; [reflexivity|]. split; [reflexivity|].
  split; [apply onTextChange_disposed; reflexivity | reflexivity].
Qed.

(** X12 at [sample_world]. *)
Lemma handlers_throw_after_dispose_witness :
  exists w',
    dispose sample_world = Return tt w' /\
    restart {| text := "OK" |} (Fulfilled tt) w' = Throw TypeError w' /\
    onCompletionRequest request_pri w' = Throw TypeError w' /\
    onTextChange typed_prin w' = Throw TypeError w' /\
    onContentChanged from_first_to_third w' = Throw TypeError w'.
Proof.
  exact (handlers_throw_after_dispose sample_world {| text := "OK" |}
           (Fulfilled tt) request_pri typed_prin 0 2 eq_refl eq_refl).
Defined.

(** ** More on the rebinding *)

Lemma rebound_from_bound (old new : nat) (w : World) :
  bound_to old w -> bound_to new (rebound old new w).
Proof.
  unfold bound_to, rebound. intros Hb. js. rewrite Hb.
  assert (F : filter (fun c => c <> (old, completionRequested))
                (filter (fun c => c <> (old, textChanged))
                   [(old, textChanged); (old, completionRequested)]) = []).
  { rewrite !filter_cons, filter_nil.
    repeat case_decide; try congruence.
    rewrite !filter_cons, filter_nil.
    repeat case_decide; congruence. }
  rewrite F.
  destruct (decide ((new, textChanged) ∈ @nil (nat * EditorSignal)))
    as [Hin|_]; [exfalso; exact (not_elem_of_nil _ Hin)|].
  destruct (decide _) as [Hin|_]; [|reflexivity].
  exfalso. simpl in Hin. apply list_elem_of_singleton in Hin.
  discriminate Hin.
Qed.

(** X13. If exactly the two signals of the old cell's editor are
    connected and both indices of the change have a cell, then after
    [onContentChanged] exactly the two signals of the new cell's editor are
    connected: one editor is bound before and one after, also when the old
    and the new cell are the same. *)
Theorem rebinding_keeps_one_editor_bound
    (w : World) (args : IChangedArgs) (c_old c_new : CellWidget) :
  args_name args = "activeCellIndex" ->
  _content (this w) = object ->
  js_index (children w) (oldValue args) = Some c_old ->
  js_index (children w) (newValue args) = Some c_new ->
  bound_to (editor c_old) w ->
  exists w',
    onContentChanged args w = Return tt w' /\
    bound_to (editor c_new) w'.
Proof.
  intros Hname Hcontent Hold Hnew Hb.
  exists (rebound (editor c_old) (editor c_new) w).
  split; [exact (onContentChanged_rebinds w args c_old c_new
                   Hname Hcontent Hold Hnew)|].
  exact (rebound_from_bound _ _ w Hb).
Qed.

(** X13 at [sample_world], from the first cell to the third. *)
Lemma rebinding_keeps_one_editor_bound_witness :
  exists w',
    onContentChanged from_first_to_third sample_world = Return tt w' /\
    connections w' = [(12%nat, textChanged); (12%nat, completionRequested)].
Proof.
  exact (rebinding_keeps_one_editor_bound sample_world from_first_to_third
           {| editor := 10 |} {| editor := 12 |}
           eq_refl eq_refl eq_refl eq_refl eq_refl).
Defined.

(** X14. After a change of the active cell between two cells with
    different editors, a text change or completion request emitted by the
    old editor no longer reaches the panel, and one emitted by the new
    editor reaches [onTextChange] or [onCompletionRequest]. *)
Theorem rebinding_moves_delivery
    (w : World) (args : IChangedArgs) (c_old c_new : CellWidget)
    (typed : ITextChange.t) (request : ICompletionRequest.t) :
  args_name args = "activeCellIndex" ->
  _content (this w) = object ->
  js_index (children w) (oldValue args) = Some c_old ->
  js_index (children w) (newValue args) = Some c_new ->
  editor c_old <> editor c_new ->
  exists w',
    onContentChanged args w = Return tt w' /\
    emit_textChanged (editor c_old) typed w' = Return tt w' /\
    emit_completionRequested (editor c_old) request w' = Return tt w' /\
    emit_textChanged (editor c_new) typed w' = onTextChange typed w' /\
    emit_completionRequested (editor c_new) request w' =
      onCompletionRequest request w'.
Proof.
  intros Hname Hcontent Hold Hnew Hne.
  exists (rebound (editor c_old) (editor c_new) w).
  split; [exact (onContentChanged_rebinds w args c_old c_new
                   Hname Hcontent Hold Hnew)|].
  pose proof (rebound_connections w (editor c_old) (editor c_new)) as Hconn.
  unfold emit_textChanged, emit_completionRequested, bind, gets.
  repeat split.
  - destruct (decide _) as [Hin|_]; [|reflexivity].
    exfalso. exact (proj2 (Hconn textChanged) Hne Hin).
  - destruct (decide _) as [Hin|_]; [|reflexivity].
    exfalso. exact (proj2 (Hconn completionRequested) Hne Hin).
  - destruct (decide _) as [_|Hout]; [reflexivity|].
    exfalso. exact (Hout (proj1 (Hconn textChanged))).
  - destruct (decide _) as [_|Hout]; [reflexivity|].
    exfalso. exact (Hout (proj1 (Hconn completionRequested))).
Qed.

(** X14 at [sample_world], from the first cell to the third. *)
Lemma rebinding_moves_delivery_witness :
  exists w',
    onContentChanged from_first_to_third sample_world = Return tt w' /\
    emit_textChanged 10 typed_prin w' = Return tt w' /\
    emit_completionRequested 10 request_pri w' = Return tt w' /\
    emit_textChanged 12 typed_prin w' = onTextChange typed_prin w' /\
    emit_completionRequested 12 request_pri w' =
      onCompletionRequest request_pri w'.
Proof.
  refine (rebinding_moves_delivery sample_world from_first_to_third
            {| editor := 10 |} {| editor := 12 |} typed_prin request_pri
            eq_refl eq_refl eq_refl eq_refl _).
  simpl. lia.
Defined.

(** ** The constructor *)

Lemma connected_after (c : nat * EditorSignal)
    (cs : list (nat * EditorSignal)) :
  c ∈ (if decide (c ∈ cs) then cs else (cs ++ [c])%list).
Proof.
  destruct (decide (c ∈ cs)) as [Hin|_]; [exact Hin|].
  apply elem_of_app. right. apply list_elem_of_singleton. reflexivity.
Qed.

Lemma connect_keeps (x c : nat * EditorSignal)
    (cs : list (nat * EditorSignal)) :
  x ∈ cs -> x ∈ (if decide (c ∈ cs) then cs else (cs ++ [c])%list).
Proof.
  intros Hx. destruct (decide (c ∈ cs)); [exact Hx|].
  apply elem_of_app. left. exact Hx.
Qed.

Lemma no_kernelInfo_added (k : IKernel) (log extra : list Call) :
  Forall (fun c => forall k', c <> kernel_kernelInfo k') extra ->
  In (kernel_kernelInfo k) (log ++ extra) -> In (kernel_kernelInfo k) log.
Proof.
  intros Hall Hin. apply in_app_or in Hin as [Hin|Hin]; [exact Hin|].
  rewrite List.Forall_forall in Hall. exfalso.
  exact (Hall _ Hin k eq_refl).
Qed.

Lemma no_getKernelSpec_added (k : IKernel) (log extra : list Call) :
  Forall (fun c => forall k', c <> kernel_getKernelSpec k') extra ->
  In (kernel_getKernelSpec k) (log ++ extra) ->
  In (kernel_getKernelSpec k) log.
Proof.
  intros Hall Hin. apply in_app_or in Hin as [Hin|Hin]; [exact Hin|].
  rewrite List.Forall_forall in Hall. exfalso.
  exact (Hall _ Hin k eq_refl).
Qed.

(** What the constructor leaves, in every state. *)
Lemma constructor_outcome
    (w : World) (rendermime clipboard : Ref) :
  exists w',
    constructor rendermime clipboard w = Return tt w' /\
    this w' =
      {| _rendermime := rendermime; _context := object; _model := object;
         _content := object; _toolbar := object; _clipboard := clipboard;
         _completion := object;
         _pendingComplete := _pendingComplete (this w);
         isDisposed := isDisposed (this w) |} /\
    completion_model w' = CompletionModel.empty /\
    kernelChanged_slot w' = true /\
    (forall cell,
        js_index (children w) (activeCellIndex w) = Some cell ->
        (editor cell, textChanged) ∈ connections w' /\
        (editor cell, completionRequested) ∈ connections w') /\
    (js_index (children w) (activeCellIndex w) = None ->
     connections w' = connections w) /\
    (kernel w = None ->
     pending w' = pending w /\ metadata w' = metadata w /\
     (forall k, In (kernel_kernelInfo k) (calls w') ->
                In (kernel_kernelInfo k) (calls w)) /\
     (forall k, In (kernel_getKernelSpec k) (calls w') ->
                In (kernel_getKernelSpec k) (calls w))).
Proof.
  unfold constructor, handleKernelChange. js.
  destruct (kernel w) as [k|] eqn:Hk; fields;
    destruct (js_index (children w) (activeCellIndex w)) as [c|] eqn:Hc;
    fields; eexists; (split; [reflexivity|]); fields;
    (split; [reflexivity|]); (split; [reflexivity|]);
    (split; [reflexivity|]).
  all: split; [|split].
  all: try (intros cell Hcell; discriminate Hcell).
  all: try (intros Hnone; discriminate Hnone).
  all: try (intros _; reflexivity).
  - intros cell [= <-].
    split; [apply connect_keeps, connected_after | apply connected_after].
  - intros cell [= <-].
    split; [apply connect_keeps, connected_after | apply connected_after].
  - intros _. split; [reflexivity|]. split; [reflexivity|].
    split; intros k Hin; rewrite <- ?app_assoc in Hin.
    + apply (no_kernelInfo_added k (calls w) _) in Hin; [exact Hin|].
      repeat constructor; intros k'; discriminate.
    + apply (no_getKernelSpec_added k (calls w) _) in Hin; [exact Hin|].
      repeat constructor; intros k'; discriminate.
  - intros _. split; [reflexivity|]. split; [reflexivity|].
    split; intros k Hin; rewrite <- ?app_assoc in Hin.
    + apply (no_kernelInfo_added k (calls w) _) in Hin; [exact Hin|].
      repeat constructor; intros k'; discriminate.
    + apply (no_getKernelSpec_added k (calls w) _) in Hin; [exact Hin|].
      repeat constructor; intros k'; discriminate.
Qed.

(** X15. The constructor never throws, whatever the state of the
    content area and of the context. It leaves a panel whose model, context,
    content, toolbar and completion references are set, whose rendermime and
    clipboard are the ones it was given, with a new completion model and the
    [kernelChanged] listener connected, and it does not touch the token.
    If the active index has a cell, both signals of its editor are connected
    afterwards; if it has none, the connections are as before. Without a
    kernel on the context it fetches nothing, neither kernel info nor
    kernel spec, and registers no callback. *)
Theorem constructor_sets_up_the_panel
    (w : World) (rendermime clipboard : Ref) :
  exists w',
    constructor rendermime clipboard w = Return tt w' /\
    this w' =
      {| _rendermime := rendermime; _context := object; _model := object;
         _content := object; _toolbar := object; _clipboard := clipboard;
         _completion := object;
         _pendingComplete := _pendingComplete (this w);
         isDisposed := isDisposed (this w) |} /\
    completion_model w' = CompletionModel.empty /\
    kernelChanged_slot w' = true /\
    (forall cell,
        js_index (children w) (activeCellIndex w) = Some cell ->
        (editor cell, textChanged) ∈ connections w' /\
        (editor cell, completionRequested) ∈ connections w') /\
    (js_index (children w) (activeCellIndex w) = None ->
     connections w' = connections w) /\
    (kernel w = None ->
     pending w' = pending w /\ metadata w' = metadata w /\
     (forall k, In (kernel_kernelInfo k) (calls w') ->
                In (kernel_kernelInfo k) (calls w)) /\
     (forall k, In (kernel_getKernelSpec k) (calls w') ->
                In (kernel_getKernelSpec k) (calls w))).
Proof.
  destruct (constructor_outcome w rendermime clipboard)
    as (w' & Hrun & Hthis & Hmodel & Hslot & Hcell & Hnone & Hnokernel).
  exists w'. split; [exact Hrun|]. split; [exact Hthis|].
  split; [exact Hmodel|]. split; [exact Hslot|].
  split; [exact Hcell|]. split; [exact Hnone | exact Hnokernel].
Qed.

(** X15 at [blank_world]: no kernel, the first of three cells active. *)
Lemma constructor_sets_up_the_panel_witness :
  exists w',
    constructor object object blank_world = Return tt w' /\
    (10%nat, textChanged) ∈ connections w' /\
    (10%nat, completionRequested) ∈ connections w' /\
    pending w' = [] /\
    _completion (this w') = object.
Proof.
  destruct (constructor_sets_up_the_panel blank_world object object)
    as (w' & Hrun & Hthis & _ & _ & Hcell & _ & Hnokernel).
  exists w'. split; [exact Hrun|].
  destruct (Hcell {| editor := 10 |} eq_refl) as [Ht Hc].
  split; [exact Ht|]. split; [exact Hc|].
  split; [exact (proj1 (Hnokernel eq_refl))|].
  rewrite Hthis. reflexivity.
Defined.

(** ** More on the kernel listeners *)

(** X16. The [kernelChanged] listener does not test the kernel: when
    the signal is emitted while the context has no kernel, it throws a
    [TypeError] and fetches nothing, before and after construction, whereas
    the constructor, in the same situation, skips the fetch and returns. *)
Theorem kernelChanged_without_kernel_throws
    (w : World) (rendermime clipboard : Ref) :
  kernel w = None ->
  on_kernelChanged w = Throw TypeError w /\
  exists w',
    constructor rendermime clipboard w = Return tt w' /\
    pending w' = pending w /\
    handle kernelChanged_emitted w' = Throw TypeError w'.
Proof.
  intros Hk.
  assert (Hthrow : forall u, kernel u = None ->
                             on_kernelChanged u = Throw TypeError u).
  { intros u Hu. unfold on_kernelChanged, handleKernelChange. js.
    rewrite Hu. reflexivity. }
  split; [exact (Hthrow w Hk)|].
  destruct (constructor_outcome w rendermime clipboard)
    as (w' & Hrun & _ & _ & Hslot & _ & _ & Hnokernel).
  exists w'. split; [exact Hrun|].
  split; [exact (proj1 (Hnokernel Hk))|].
  assert (Hk' : kernel w' = None).
  { assert (Hkeep : preserves kernel (constructor rendermime clipboard)).
    { unfold constructor. unfold_handlers. frame. }
    specialize (Hkeep w). rewrite Hrun in Hkeep. simpl in Hkeep.
    rewrite Hkeep. exact Hk. }
  unfold handle, bind, gets. rewrite Hslot. exact (Hthrow w' Hk').
Qed.

(** X16 at [blank_world]. *)
Lemma kernelChanged_without_kernel_throws_witness :
  on_kernelChanged blank_world = Throw TypeError blank_world /\
  exists w',
    constructor object object blank_world = Return tt w' /\
    pending w' = pending blank_world /\
    handle kernelChanged_emitted w' = Throw TypeError w'.
Proof.
  exact (kernelChanged_without_kernel_throws blank_world object object
           eq_refl).
Defined.

(** X17. The metadata can describe a kernel that is no longer the
    current one. The kernel changes from [k1] to [k2] and each change starts
    its fetch; if the kernel spec of [k1] arrives after that of [k2], the
    ['kernelspec'] entry ends with the name of [k1] and the display name and
    language of its spec, while the context's kernel is [k2]. *)
Theorem metadata_can_describe_a_replaced_kernel
    (w : World) (k1 k2 : IKernel) (spec1 spec2 : IKernelSpec) :
  kernel w = Some k1 ->
  kernelChanged_slot w = true ->
  exists w1 w2,
    handle kernelChanged_emitted w = Return tt w1 /\
    handle kernelChanged_emitted (with_kernel (Some k2) w1) = Return tt w2 /\
    In (getKernelSpec_then k1) (pending w2) /\
    In (getKernelSpec_then k2) (pending w2) /\
    kernel
      (handle_all
         [promise_fulfilled (getKernelSpec_then k2) spec2;
          promise_fulfilled (getKernelSpec_then k1) spec1] w2) = Some k2 /\
    metadata
      (handle_all
         [promise_fulfilled (getKernelSpec_then k2) spec2;
          promise_fulfilled (getKernelSpec_then k1) spec1] w2)
      !! "kernelspec" =
    Some [("name", name k1);
          ("display_name", display_name spec1);
          ("language", language spec1)].
Proof.
  intros Hk Hslot.
  unfold handle at 1 2, bind, gets. rewrite Hslot.
  unfold on_kernelChanged, bind, gets. rewrite Hk.
  destruct (handleKernelChange_fetches w k1) as (w1 & Hrun1 & Hw1 & _ & Hp1).
  exists w1. rewrite Hrun1.
  assert (Hslot1 : kernelChanged_slot (with_kernel (Some k2) w1) = true)
    by (rewrite Hw1; exact Hslot).
  rewrite Hslot1. cbn [kernel with_kernel].
  destruct (handleKernelChange_fetches (with_kernel (Some k2) w1) k2)
    as (w2 & Hrun2 & Hw2 & _ & Hp2).
  exists w2. rewrite Hrun2.
  split; [reflexivity|]. split; [reflexivity|].
  split; [rewrite Hp2; cbn [pending with_kernel]; rewrite Hp1;
          apply in_or_app; left; apply in_or_app; right; right; left;
          reflexivity|].
  split; [rewrite Hp2; apply in_or_app; right; right; left; reflexivity|].
  cbn [handle_all handle run]. unfold on_getKernelSpec, setMetadata, modify.
  cbn [state_of kernel metadata with_metadata].
  split; [rewrite Hw2; reflexivity|].
  apply lookup_insert_eq.
Qed.

(** X17 at [sample_world], from [python3] to [julia]. *)
Lemma metadata_can_describe_a_replaced_kernel_witness :
  exists w1 w2,
    handle kernelChanged_emitted sample_world = Return tt w1 /\
    handle kernelChanged_emitted (with_kernel (Some julia) w1) =
      Return tt w2 /\
    kernel
      (handle_all
         [promise_fulfilled (getKernelSpec_then julia)
            {| display_name := "Julia"; language := "julia" |};
          promise_fulfilled (getKernelSpec_then python3)
            {| display_name := "Python 3"; language := "python" |}] w2)
      = Some julia /\
    metadata
      (handle_all
         [promise_fulfilled (getKernelSpec_then julia)
            {| display_name := "Julia"; language := "julia" |};
          promise_fulfilled (getKernelSpec_then python3)
            {| display_name := "Python 3"; language := "python" |}] w2)
      !! "kernelspec" =
    Some [("name", "python3"); ("display_name", "Python 3");
          ("language", "python")].
Proof.
  destruct (metadata_can_describe_a_replaced_kernel sample_world python3 julia
              {| display_name := "Python 3"; language := "python" |}
              {| display_name := "Julia"; language := "julia" |}
              eq_refl eq_refl)
    as (w1 & w2 & H1 & H2 & _ & _ & Hk & Hm).
  exists w1, w2. repeat split; assumption.
Defined.

(** ** More on [restart] *)

(** X18. When the dialog is accepted and the kernel fails to restart,
    the promise returned by [restart] is not resolved to false: it is
    rejected with the kernel's reason. The dialog was shown and the
    kernel's [restart] called once, and nothing but the log changed. *)
Theorem restart_rejection_propagates
    (w : World) (k : IKernel) (result : IButtonItem) (reason : string) :
  _context (this w) = object ->
  kernel w = Some k ->
  text result = "OK" ->
  exists w',
    restart result (Rejected reason) w = Return (Rejected reason) w' /\
    count is_showDialog (calls w') = S (count is_showDialog (calls w)) /\
    count is_kernel_restart (calls w') =
      S (count is_kernel_restart (calls w)) /\
    w' = with_calls (fun _ => calls w') w.
Proof.
  intros Hctx Hk Hok. eexists.
  split; [exact (restart_accepted w k result (Rejected reason) Hctx Hk Hok)|].
  fields. rewrite !count_app. unfold count. simpl.
  repeat split; lia.
Qed.

(** X18 at [sample_world]. *)
Lemma restart_rejection_propagates_witness :
  exists w',
    restart {| text := "OK" |} (Rejected "kernel died") sample_world =
      Return (Rejected "kernel died") w' /\
    count is_kernel_restart (calls w') = 1%nat.
Proof.
  destruct (restart_rejection_propagates sample_world python3
              {| text := "OK" |} "kernel died" eq_refl eq_refl eq_refl)
    as (w' & Hrun & _ & Hcount & _).
  exists w'. split; [exact Hrun | exact Hcount].
Defined.

(** ** More on the factory *)

(** X19. [dispose] of the factory makes [isDisposed] true, whatever the
    factory was, and leaves the panel alone; on a disposed factory
    [createNew] throws a [TypeError] at [this._rendermime.clone()], before
    any call to [context.changeKernel] and before a panel is constructed:
    the state is as it was. *)
Theorem createNew_throws_on_disposed_factory
    (KernelSpecs : Type) (findKernel : string -> string -> KernelSpecs -> string)
    (f : NotebookWidgetFactory.t) (w : World)
    (model : NotebookWidgetFactory.INotebookModel)
    (kernelspecs : KernelSpecs) (kernel : option IKernelId) :
  exists f',
    NotebookWidgetFactory.dispose (f, w) = Return tt (f', w) /\
    NotebookWidgetFactory.isDisposed f' = true /\
    NotebookWidgetFactory.dispose (f', w) = Return tt (f', w) /\
    NotebookWidgetFactory.createNew KernelSpecs findKernel model kernelspecs
      kernel (f', w) = Throw TypeError (f', w).
Proof.
  eexists. split; [reflexivity|]. split; [reflexivity|].
  split; reflexivity.
Qed.

(** X20. On a factory that is not disposed, [createNew] returns with a
    new panel, whatever panel the state held before: its token is 0, it is
    not disposed, its clipboard is the factory's, its other references are
    set and its completion model is new. The factory is unchanged and the
    last call made is [populateDefaults]. *)
Theorem createNew_builds_a_fresh_panel
    (KernelSpecs : Type) (findKernel : string -> string -> KernelSpecs -> string)
    (f : NotebookWidgetFactory.t) (w : World)
    (model : NotebookWidgetFactory.INotebookModel)
    (kernelspecs : KernelSpecs) (kernel : option IKernelId) :
  NotebookWidgetFactory._rendermime f = object ->
  exists w',
    NotebookWidgetFactory.createNew KernelSpecs findKernel model kernelspecs
      kernel (f, w) = Return tt (f, w') /\
    this w' =
      {| _rendermime := object; _context := object; _model := object;
         _content := object; _toolbar := object;
         _clipboard := NotebookWidgetFactory._clipboard f;
         _completion := object; _pendingComplete := 0;
         isDisposed := false |} /\
    completion_model w' = CompletionModel.empty /\
    last (calls w') = Some populateDefaults.
Proof.
  intros Hlive.
  set (kid := match kernel with
              | Some k => k
              | None =>
                  {| id_name :=
                       Some (findKernel
                               (NotebookWidgetFactory.defaultKernelName model)
                               (NotebookWidgetFactory.defaultKernelLanguage model)
                               kernelspecs);
                     id := None |}
              end).
  set (w1 := with_this (fun _ => new_NotebookPanel)
               (with_calls (fun l => (l ++ [context_changeKernel kid])%list)
                  (with_calls (fun l => (l ++ [rendermime_clone])%list) w))).
  destruct (constructor_outcome w1 object
              (NotebookWidgetFactory._clipboard f))
    as (w2 & Hctor & Hthis & Hmodel & _).
  exists (with_calls (fun l => (l ++ [populateDefaults])%list) w2).
  split.
  - unfold NotebookWidgetFactory.createNew, NotebookWidgetFactory.lift,
      bind, gets, assign, call, modify, ret, throw.
    cbn [fst snd]. rewrite Hlive. unfold w1 in Hctor.
    destruct kernel as [k|]; cbn [fst snd]; unfold kid in Hctor;
      rewrite Hctor; reflexivity.
  - cbn [this completion_model calls with_calls].
    split; [rewrite Hthis; reflexivity|]. split; [exact Hmodel|].
    apply last_snoc.
Qed.

(** X20 at [sample_factory], over the state a disposed panel left. *)
Lemma createNew_builds_a_fresh_panel_witness :
  exists w',
    NotebookWidgetFactory.createNew unit (fun name _ _ => name)
      {| NotebookWidgetFactory.defaultKernelName := "python3";
         NotebookWidgetFactory.defaultKernelLanguage := "python" |}
      tt None (sample_factory, after dispose two_requests_world) =
      Return tt (sample_factory, w') /\
    _pendingComplete (this w') = 0 /\
    isDisposed (this w') = false /\
    completion_model w' = CompletionModel.empty.
Proof.
  destruct (createNew_builds_a_fresh_panel unit (fun name _ _ => name)
              sample_factory (after dispose two_requests_world)
              {| NotebookWidgetFactory.defaultKernelName := "python3";
                 NotebookWidgetFactory.defaultKernelLanguage := "python" |}
              tt None eq_refl)
    as (w' & Hrun & Hthis & Hmodel & _).
  exists w'. split; [exact Hrun|]. rewrite Hthis.
  split; [reflexivity|]. split; [reflexivity | exact Hmodel].
Defined.

(** ** More on [trustNotebook] *)

(** X21. Once the dialog has been accepted, the notebook stays
    trusted: a second call of [trustNotebook] shows no dialog and changes
    nothing, whatever its dialog would have answered. *)
Theorem trustNotebook_accepted_then_silent
    (nb : Notebook) (first second : IButtonItem) :
  text first = "OK" ->
  exists nb1,
    trustNotebook first nb = Return tt nb1 /\
    trustNotebook second nb1 = Return tt nb1.
Proof.
  intros Hok.
  assert (Htrusted : forall nb1 : Notebook,
             Forall (fun cell => trusted cell = Some true) (cells nb1) ->
             trustNotebook second nb1 = Return tt nb1).
  { intros nb1 Hall. apply all_trusted_spec in Hall.
    unfold trustNotebook, bind, gets. rewrite Hall. reflexivity. }
  unfold trustNotebook at 1. unfold bind, gets, modify.
  destruct (all_trusted (cells nb)) eqn:Hscan.
  - exists nb. split; [reflexivity|].
    apply Htrusted, all_trusted_spec, Hscan.
  - unfold on_trust_dialog. rewrite Hok. simpl.
    eexists. split; [reflexivity|]. apply Htrusted. simpl. apply trust_all.
Qed.

(** X21 at [sample_notebook]. *)
Lemma trustNotebook_accepted_then_silent_witness :
  exists nb1,
    trustNotebook {| text := "OK" |} sample_notebook = Return tt nb1 /\
    trustNotebook {| text := "Cancel" |} nb1 = Return tt nb1.
Proof.
  exact (trustNotebook_accepted_then_silent sample_notebook
           {| text := "OK" |} {| text := "Cancel" |} eq_refl).
Defined.

(** X22. A declined dialog is asked again: on a notebook with a cell
    that is not trusted, a call whose dialog is declined leaves every flag
    as it was, and the next call shows the dialog a second time and, when
    accepted, trusts every cell. *)
Theorem trustNotebook_declined_then_asked_again
    (nb : Notebook) (first second : IButtonItem) :
  ~ Forall (fun cell => trusted cell = Some true) (cells nb) ->
  text first <> "OK" ->
  text second = "OK" ->
  exists nb1 nb2,
    trustNotebook first nb = Return tt nb1 /\
    cells nb1 = cells nb /\
    trustNotebook second nb1 = Return tt nb2 /\
    count is_showDialog (dialogs nb2) =
      (count is_showDialog (dialogs nb) + 2)%nat /\
    Forall (fun cell => trusted cell = Some true) (cells nb2) /\
    length (cells nb2) = length (cells nb).
Proof.
  intros Hnot Hno Hok.
  assert (Hscan : all_trusted (cells nb) = false).
  { destruct (all_trusted (cells nb)) eqn:E; [|reflexivity].
    exfalso. apply Hnot, all_trusted_spec, E. }
  unfold trustNotebook, bind, gets, modify. rewrite Hscan.
  unfold on_trust_dialog.
  destruct (String.eqb_spec (text first) "OK") as [Habs|_];
    [contradiction|].
  eexists. eexists. split; [reflexivity|]. simpl.
  split; [reflexivity|]. rewrite Hscan, Hok. simpl.
  split; [reflexivity|]. simpl.
  split; [rewrite !count_app; unfold count; simpl; lia|].
  split; [apply trust_all | apply length_map].
Qed.

(** X22 at [sample_notebook]. *)
Lemma trustNotebook_declined_then_asked_again_witness :
  exists nb1 nb2,
    trustNotebook {| text := "Cancel" |} sample_notebook = Return tt nb1 /\
    cells nb1 = cells sample_notebook /\
    trustNotebook {| text := "OK" |} nb1 = Return tt nb2 /\
    count is_showDialog (dialogs nb2) = 2%nat /\
    Forall (fun cell => trusted cell = Some true) (cells nb2).
Proof.
  assert (Hnot : ~ Forall (fun cell => trusted cell = Some true)
                     (cells sample_notebook)).
  { intros H. inversion H as [|? ? _ Hrest].
    inversion Hrest as [|? ? Hflag _]. discriminate Hflag. }
  destruct (trustNotebook_declined_then_asked_again sample_notebook
              {| text := "Cancel" |} {| text := "OK" |} Hnot)
    as (nb1 & nb2 & H1 & Hc & H2 & Hd & Hall & _);
    [discriminate | reflexivity |].
  exists nb1, nb2. repeat split; assumption.
Defined.

(** ** [onCompletionSelect] *)

(** X23. On a panel that holds its completion widget and its content
    area, selecting a completion writes the patch into the document of the
    active cell's editor (its text, and its cursor from the patch's
    position) and into no other document, and changes nothing of the panel.
    When the active index has no cell, or when [createPatch] returns
    [null], it throws a [TypeError] and no document is written. *)
Theorem onCompletionSelect_patches_the_active_cell
    (createPatch : CompletionModel.t -> string -> option ICompletionPatch)
    (w : World) (docs : gmap nat Doc) (value : string) :
  _completion (this w) = object ->
  _content (this w) = object ->
  (forall cell p,
      js_index (children w) (activeCellIndex w) = Some cell ->
      createPatch (completion_model w) value = Some p ->
      exists docs',
        onCompletionSelect createPatch value (w, docs) =
          Return tt (w, docs') /\
        docs' !! editor cell =
          Some {| doc_value := patch_text p; doc_cursor := position p |} /\
        forall ed, ed <> editor cell -> docs' !! ed = docs !! ed) /\
  (js_index (children w) (activeCellIndex w) = None \/
   createPatch (completion_model w) value = None ->
   onCompletionSelect createPatch value (w, docs) =
     Throw TypeError (w, docs)).
Proof.
  intros Hcmp Hcontent. split.
  - intros cell p Hcell Hpatch. eexists. split.
    + unfold onCompletionSelect, on_world, childAt, through, property_of,
        bind, gets, modify, ret, throw.
      cbn [fst snd]. rewrite Hcmp. cbn [fst snd]. rewrite Hcontent.
      cbn [fst snd]. rewrite Hcell. cbn [fst snd]. rewrite Hpatch.
      reflexivity.
    + split; [apply lookup_insert_eq|].
      intros ed Hne. apply lookup_insert_ne. congruence.
  - intros Hmissing.
    unfold onCompletionSelect, on_world, childAt, through, property_of,
      bind, gets, modify, ret, throw.
    cbn [fst snd]. rewrite Hcmp. cbn [fst snd]. rewrite Hcontent.
    cbn [fst snd].
    destruct (js_index (children w) (activeCellIndex w)) as [cell|];
      cbn [fst snd]; [|reflexivity].
    destruct Hmissing as [Habs|Hnone]; [discriminate Habs|].
    rewrite Hnone. reflexivity.
Qed.

(** X23 at [session_world], where the first cell is active, and at
    [sample_world], where no session is open. *)
Lemma onCompletionSelect_patches_the_active_cell_witness :
  (exists docs',
      onCompletionSelect sample_createPatch "print"
        (session_world, sample_docs) = Return tt (session_world, docs') /\
      docs' !! 10%nat =
        Some {| doc_value := units "print"; doc_cursor := 5 |} /\
      docs' !! 11%nat = sample_docs !! 11%nat) /\
  onCompletionSelect sample_createPatch "print" (sample_world, sample_docs) =
    Throw TypeError (sample_world, sample_docs).
Proof.
  split.
  - destruct (proj1 (onCompletionSelect_patches_the_active_cell
                       sample_createPatch session_world sample_docs "print"
                       eq_refl eq_refl)
                {| editor := 10 |}
                {| patch_text := units "print"; position := 5 |}
                eq_refl eq_refl)
      as (docs' & Hrun & Hdoc & Hother).
    exists docs'. split; [exact Hrun|]. split; [exact Hdoc|].
    apply Hother. simpl. lia.
  - apply (proj2 (onCompletionSelect_patches_the_active_cell
                    sample_createPatch sample_world sample_docs "print"
                    eq_refl eq_refl)).
    right. reflexivity.
Defined.

(** X24 at a world with one pending request: its accepted reply is an
    event that changes the suggestions. *)
Lemma suggestions_written_only_by_witness :
  (exists ed change,
      promise_fulfilled (complete_then 1 request_pri) reply_print =
      textChanged_emitted ed change) \/
  (exists change value,
      promise_fulfilled (complete_then 1 request_pri) reply_print =
      promise_fulfilled
        (complete_then
           (token (after (onCompletionRequest request_pri) sample_world))
           change) value /\
      status value = "ok" /\
      CompletionModel.isDisposed
        (completion_model
           (after (onCompletionRequest request_pri) sample_world)) = false).
Proof.
  apply (suggestions_written_only_by
           (promise_fulfilled (complete_then 1 request_pri) reply_print)
           (after (onCompletionRequest request_pri) sample_world)).
  vm_compute. discriminate.
Defined.

